(** * eco11 realtime layer: activity ingest, rooms and event fan-out

    A shallow embedding of the websocket part of [backend/server.ts]: the
    authentication middleware of the socket server, the connection handler
    and the inbound event handlers [log_activity], [update_goal],
    [webinar_message], [join_webinar] and [leave_webinar], together with the
    two mock services they call ([calculateCarbonFootprint] and
    [generatePersonalizedRecommendations]).

    JavaScript numbers are binary64 floats and are modelled by Rocq's
    primitive floats.  The clock, the uuid generator, the token verifier,
    the users table and the built-in objects of the runtime are collected in
    a [host] record that every handler receives. *)

From Stdlib Require Import PrimFloat.
From stdpp Require Import gmap strings list pretty.
From Stdlib Require FloatAxioms FloatOps SpecFloat.

Set Warnings "-inexact-float,-clear-no-such-hyp".

(** ** JavaScript values met by the factor lookup *)

(** The values that [emissionFactors[activity_type]?.[unit]] can produce.
    [VObject] stands for a value that is truthy and is not a number under
    [*]: an object, a function (the members every object inherits from
    [Object.prototype] are functions) or the name of a function. *)
Inductive value :=
| VUndefined
| VNull
| VNum (x : float)
| VObject.

Definition is_nan (x : float) : bool := negb (PrimFloat.eqb x x).

(** ToBoolean: [undefined], [null], [0], [-0] and [NaN] are falsy. *)
Definition to_boolean (v : value) : bool :=
  match v with
  | VUndefined | VNull => false
  | VNum x => negb (PrimFloat.eqb x 0 || is_nan x)
  | VObject => true
  end.

(** ToNumber, as applied by the operator [*]. *)
Definition to_number (v : value) : float :=
  match v with
  | VUndefined => nan
  | VNull => 0%float
  | VNum x => x
  | VObject => nan
  end.

(** [a || b] *)
Definition js_or (a b : value) : value := if to_boolean a then a else b.

(** [a * b] *)
Definition js_mul (a b : value) : float := PrimFloat.mul (to_number a) (to_number b).

(** A field read by destructuring: an absent field reads as [undefined]. *)
Definition number_field (q : option float) : value :=
  match q with
  | Some x => VNum x
  | None => VUndefined
  end.

(** A string field used as a property key or inside a template string: an
    absent field is [undefined] and prints as such. *)
Definition property_key (k : option string) : string := default "undefined" k.

(** ToBoolean of a string field: absent and empty are falsy. *)
Definition string_truthy (k : option string) : bool :=
  match k with
  | Some s => negb (String.eqb s "")
  | None => false
  end.

(** ** Object literals *)

(** The own properties of an object literal, in source order. *)
Fixpoint get_own {A : Type} (o : list (string * A)) (k : string) : option A :=
  match o with
  | [] => None
  | (k', v) :: o' => if String.eqb k' k then Some v else get_own o' k
  end.

(** The property names every object literal inherits from
    [Object.prototype]: all of them are functions, except [__proto__],
    which reads as [Object.prototype] itself. *)
Definition object_prototype_keys : list string :=
  [ "constructor"; "__defineGetter__"; "__defineSetter__"; "hasOwnProperty";
    "__lookupGetter__"; "__lookupSetter__"; "isPrototypeOf";
    "propertyIsEnumerable"; "toString"; "valueOf"; "__proto__";
    "toLocaleString" ].

Definition inherited (k : string) : bool :=
  existsb (String.eqb k) object_prototype_keys.

(** ** The host: what the server takes from its runtime and collaborators *)

(** A row of the users table, as bound to [socket.user]; [uid] is its
    column [id]. *)
Record user := {
  uid : string;
  username : string;
  email : string;
  created_at : Z
}.

(** The decoded payload of a token: [decoded.user_id] may be absent. *)
Record decoded_token := { decoded_user_id : option string }.

Record host := {
  (** the k-th reading of the clock during one handler run, in ms *)
  clock : nat → Z;
  (** the k-th identifier drawn from [uuidv4()] during one handler run *)
  uuid : nat → string;
  (** the k-th draw of [Math.random()] during one handler run *)
  random : nat → float;
  (** [Object.prototype[name][key]]: a property of a built-in member that
      an object literal inherits; [None] when reading it throws *)
  builtin_get : string → string → option value;
  (** [jwt.verify(token, JWT_SECRET)]; [None] when it throws *)
  jwt_verify : string → option decoded_token;
  (** the rows of [SELECT ... FROM users WHERE id = $1]; [None] when the
      query is rejected *)
  select_user : option string → option (list user)
}.

(** ** calculateCarbonFootprint *)

Definition emissionFactors : list (string * list (string * float)) :=
  [ ("transportation",
       [ ("car_km", 0.2%float); ("bus_km", 0.05%float);
         ("train_km", 0.03%float); ("flight_km", 0.15%float) ]);
    ("energy",
       [ ("electricity_kwh", 0.4%float); ("gas_m3", 2.0%float);
         ("heating_oil_l", 2.5%float) ]);
    ("diet",
       [ ("beef_kg", 60%float); ("chicken_kg", 6%float);
         ("vegetables_kg", 2%float); ("dairy_l", 3.2%float) ]) ].

(** The static mapping (category, unit) -> factor written in the literal. *)
Definition table_factor (activity_type unit : string) : option float :=
  t ← get_own emissionFactors activity_type; get_own t unit.

(** [emissionFactors[activity_type]?.[unit]]: own properties first, then the
    prototype chain; [?.] stops at [undefined].  [None] when the read
    throws. *)
Definition lookup_factor (h : host) (activity_type unit : string) : option value :=
  match get_own emissionFactors activity_type with
  | Some t =>
      match get_own t unit with
      | Some f => Some (VNum f)
      | None => Some (if inherited unit then VObject else VUndefined)
      end
  | None =>
      if inherited activity_type then builtin_get h activity_type unit
      else Some VUndefined
  end.

Record footprint := {
  fp_activity_type : option string;
  fp_quantity : option float;
  fp_unit : option string;
  co2_equivalent_kg : float;
  calculation_method : string;
  location_factor : float;
  calculated_at : Z
}.

Definition calculateCarbonFootprint (h : host) (tick : nat)
    (activity_type : option string) (quantity : option float)
    (unit : option string) (location : string) : option footprint :=
  v ← lookup_factor h (property_key activity_type) (property_key unit);
  let factor := js_or v (VNum 1) in
  let co2_impact := js_mul (number_field quantity) factor in
  Some {| fp_activity_type := activity_type;
          fp_quantity := quantity;
          fp_unit := unit;
          co2_equivalent_kg := co2_impact;
          calculation_method := "IPCC Guidelines";
          location_factor := if String.eqb location "US" then 1.0%float else 0.8%float;
          calculated_at := clock h tick |}.

(** ** generatePersonalizedRecommendations *)

Record recommendation := {
  rec_id : string;
  title : string;
  content : string;
  rec_impact : float;
  difficulty : string;
  rec_category : string;
  estimated_co2_savings : float;
  timeframe : string
}.

Definition mockRecommendations (h : host) : list recommendation :=
  [ {| rec_id := uuid h 0;
       title := "Switch to LED bulbs";
       content := "Replace incandescent bulbs with LED alternatives to save energy";
       rec_impact := 15.5%float;
       difficulty := "beginner";
       rec_category := "energy";
       estimated_co2_savings := 25.3%float;
       timeframe := "1 week" |};
    {| rec_id := uuid h 1;
       title := "Use public transportation 3x per week";
       content := "Reduce car dependency by taking buses or trains for regular commutes";
       rec_impact := 45.2%float;
       difficulty := "intermediate";
       rec_category := "transportation";
       estimated_co2_savings := 120.8%float;
       timeframe := "1 month" |};
    {| rec_id := uuid h 2;
       title := "Start composting organic waste";
       content := "Set up a home composting system to reduce landfill waste";
       rec_impact := 22.1%float;
       difficulty := "advanced";
       rec_category := "waste";
       estimated_co2_savings := 65.4%float;
       timeframe := "2 weeks" |} ].

(** [r.category === category] for a string [r.category]. *)
Definition strict_eq (a : string) (b : option string) : bool :=
  match b with
  | Some s => String.eqb a s
  | None => false
  end.

Record recommendations_update := {
  ru_user_id : string;
  recommendations : list recommendation;
  generated_at : Z;
  next_refresh : Z
}.

Definition week_ms : Z := 7 * 24 * 60 * 60 * 1000.

Definition generatePersonalizedRecommendations (h : host) (tick : nat)
    (user_id : string) (category : option string) : recommendations_update :=
  {| ru_user_id := user_id;
     recommendations :=
       if string_truthy category
       then List.filter (λ r, strict_eq (rec_category r) category) (mockRecommendations h)
       else mockRecommendations h;
     generated_at := clock h tick;
     next_refresh := (clock h (S tick) + week_ms)%Z |}.

(** ** Events sent to clients *)

(** An identifier as it arrives in a payload: absent, an integer or a
    string.  Integers that a JSON number carries exactly print in plain
    decimal inside a template string. *)
Inductive ident :=
| IdUndefined
| IdNum (n : Z)
| IdStr (s : string).

Definition ident_to_string (i : ident) : string :=
  match i with
  | IdUndefined => "undefined"
  | IdNum n => pretty n
  | IdStr s => s
  end.

Record activity_event := {
  user_id : string;
  category : option string;
  impact : float;
  timestamp : Z;
  description : option string
}.

Record goal_event := {
  goal_user_id : string;
  goal_category : option string;
  goal_target : option float;
  goal_timeframe : option string;
  updated_at : Z
}.

Record message_event := {
  webinar_id : ident;
  message_text : option string;
  sender_id : string;
  sender_username : string;
  sent_at : Z
}.

Record achievement := {
  activity_id : string;
  achieved_at : Z
}.

Record progress_event := {
  challenge_id : ident;
  progress_user_id : string;
  progress : float;
  achievements : list achievement;
  progress_updated_at : Z
}.

Inductive packet :=
| ActivityLogged (e : activity_event)            (* 'activity.logged' *)
| RecommendationUpdated (r : recommendations_update) (* 'recommendation.updated' *)
| GoalUpdated (g : goal_event)                   (* 'goal.updated' *)
| ChallengeProgress (e : progress_event)         (* 'challenge.progress' *)
| NewWebinarMessage (m : message_event)          (* 'new_webinar_message' *)
| WebinarJoined (i : ident) (message : string)   (* 'webinar_joined' *)
| WebinarLeft (i : ident) (message : string)     (* 'webinar_left' *)
| ErrorEvent (message : string)                  (* 'error' *)
| FeedEvent (name : string).
  (* 'post.created' ... 'like.deleted': what the REST routes broadcast
     after a write; the payload, a database row, is left out *)

(** ** The socket server *)

(** Modelled from the spec: the room bookkeeping and the emitters of the
    socket library ([socket.join], [socket.leave], [io.emit],
    [io.to(room).emit], [socket.emit]) are not part of the sources.  They
    follow sections 4.2 and 4.3: [rooms] maps a room to its member
    connections, [sids] maps a connection to the rooms it has joined, and an
    emit resolves its scope to a set of connections when it is called.
    [log] records every emit with the recipients it resolved to. *)
Record server := {
  sockets : gmap string user;
  rooms : gmap string (gset string);
  sids : gmap string (gset string);
  log : list (gset string * packet)
}.

Definition initial : server :=
  {| sockets := ∅; rooms := ∅; sids := ∅; log := [] |}.

Definition members (st : server) (room : string) : gset string :=
  default ∅ (rooms st !! room).

Definition rooms_of (st : server) (s : string) : gset string :=
  default ∅ (sids st !! s).

(** Modelled from the spec: [socket.join(room)] of the socket library. *)
Definition join (s room : string) (st : server) : server :=
  {| sockets := sockets st;
     rooms := <[room := {[s]} ∪ members st room]> (rooms st);
     sids := <[s := {[room]} ∪ rooms_of st s]> (sids st);
     log := log st |}.

(** Modelled from the spec: [socket.leave(room)] of the socket library; a
    room left empty is dropped. *)
Definition leave (s room : string) (st : server) : server :=
  {| sockets := sockets st;
     rooms :=
       match rooms st !! room with
       | Some m =>
           let m' := m ∖ {[s]} in
           if decide (m' = ∅) then delete room (rooms st)
           else <[room := m']> (rooms st)
       | None => rooms st
       end;
     sids := alter (λ rs, rs ∖ {[room]}) s (sids st);
     log := log st |}.

Definition emit_to (recipients : gset string) (p : packet) (st : server) : server :=
  {| sockets := sockets st;
     rooms := rooms st;
     sids := sids st;
     log := log st ++ [(recipients, p)] |}.

(** Modelled from the spec: [io.emit], scope Global. *)
Definition io_emit (p : packet) (st : server) : server :=
  emit_to (dom (sockets st)) p st.

(** Modelled from the spec: [io.to(room).emit], scope Room. *)
Definition io_to_emit (room : string) (p : packet) (st : server) : server :=
  emit_to (members st room) p st.

(** Modelled from the spec: [socket.emit], the originating connection. *)
Definition socket_emit (s : string) (p : packet) (st : server) : server :=
  emit_to {[s]} p st.

(** The packets a connection has been sent, oldest first. *)
Definition received (st : server) (s : string) : list packet :=
  snd <$> List.filter (λ e, bool_decide (s ∈ e.1)) (log st).

(** Modelled from the spec: the library drops a closed connection from every
    room and forgets it. *)
Definition disconnect (s : string) (st : server) : server :=
  {| sockets := delete s (sockets st);
     rooms := omap (λ m, let m' := m ∖ {[s]} in
                         if decide (m' = ∅) then None else Some m') (rooms st);
     sids := delete s (sids st);
     log := log st |}.

(** ** Authentication middleware: [io.use] *)

Inductive auth_result :=
| Accepted (u : user)        (* [socket.user = rows[0]; next()] *)
| Refused (message : string). (* [next(new Error(message))] *)

Definition io_use (h : host) (token : option string) : auth_result :=
  match token with
  | None | Some "" => Refused "Authentication error"   (* [!token] *)
  | Some t =>
      match jwt_verify h t with
      | Some decoded =>
          match select_user h (decoded_user_id decoded) with
          | Some (row :: _) => Accepted row
          | Some [] => Refused "Authentication error"
          | None => Refused "Authentication error"
          end
      | None => Refused "Authentication error"
      end
  end.

(** ** Connection handler: [io.on('connection')] *)

Definition user_room (u : user) : string := "user_" +:+ uid u.

Definition webinar_room (i : ident) : string := "webinar_" +:+ ident_to_string i.

(** The socket is registered with the user the middleware bound to it
    (the registration is the library's, modelled from section 4.1 of the
    spec); then the handler joins the personal room. *)
Definition on_connection (s : string) (u : user) (st : server) : server :=
  join s (user_room u)
    {| sockets := <[s := u]> (sockets st);
       rooms := rooms st;
       sids := sids st;
       log := log st |}.

(** A connection attempt: the middleware runs first, and the connection
    handler only after it has accepted. *)
Definition connect (h : host) (s : string) (token : option string) (st : server) : server :=
  match io_use h token with
  | Accepted u => on_connection s u st
  | Refused _ => st
  end.

(** ** Inbound event handlers *)

(** The payloads carry the types of the events' contract: categories,
    units and texts are strings, quantities and targets are numbers, and
    every field may be absent. *)
Record activity_report := {
  report_category : option string;
  report_quantity : option float;
  report_unit : option string;
  report_description : option string
}.

Record goal_update := {
  update_category : option string;
  update_target : option float;
  update_timeframe : option string
}.

Record webinar_chat := {
  chat_webinar_id : ident;
  chat_message_text : option string
}.

Record webinar_ref := { ref_webinar_id : ident }.

Record challenge_update := { update_challenge_id : ident }.

(** In every handler [data = None] is a payload that cannot be
    destructured ([undefined] or [null]): the destructuring throws.  A
    handler runs for a connected socket only. *)

Definition log_activity (h : host) (s : string) (data : option activity_report)
    (st : server) : server :=
  match sockets st !! s with
  | None => st
  | Some u =>
      let failed := socket_emit s (ErrorEvent "Failed to log activity") st in
      match data with
      | None => failed
      | Some r =>
          match calculateCarbonFootprint h 0 (report_category r)
                  (report_quantity r) (report_unit r) "US" with
          | None => failed
          | Some fp =>
              let activityEvent :=
                {| user_id := uid u;
                   category := report_category r;
                   impact := co2_equivalent_kg fp;
                   timestamp := clock h 1;
                   description := report_description r |} in
              let st1 := io_emit (ActivityLogged activityEvent) st in
              let updatedRecommendations :=
                generatePersonalizedRecommendations h 2 (uid u) (report_category r) in
              socket_emit s (RecommendationUpdated updatedRecommendations) st1
          end
      end
  end.

Definition update_goal (h : host) (s : string) (data : option goal_update)
    (st : server) : server :=
  match sockets st !! s with
  | None => st
  | Some u =>
      match data with
      | None => socket_emit s (ErrorEvent "Failed to update goal") st
      | Some g =>
          let goalEvent :=
            {| goal_user_id := uid u;
               goal_category := update_category g;
               goal_target := update_target g;
               goal_timeframe := update_timeframe g;
               updated_at := clock h 0 |} in
          io_to_emit (user_room u) (GoalUpdated goalEvent) st
      end
  end.

(** [Math.min(100, x)] *)
Definition min_100 (x : float) : float :=
  if is_nan x then x else if PrimFloat.ltb x 100 then x else 100%float.

Definition update_challenge_progress (h : host) (s : string)
    (data : option challenge_update) (st : server) : server :=
  match sockets st !! s with
  | None => st
  | Some u =>
      match data with
      | None => socket_emit s (ErrorEvent "Failed to update challenge progress") st
      | Some c =>
          let progressEvent :=
            {| challenge_id := update_challenge_id c;
               progress_user_id := uid u;
               progress := min_100 (PrimFloat.mul (random h 0) 100);
               achievements :=
                 [ {| activity_id := uuid h 0; achieved_at := clock h 0 |} ];
               progress_updated_at := clock h 1 |} in
          io_emit (ChallengeProgress progressEvent) st
      end
  end.

Definition webinar_message (h : host) (s : string) (data : option webinar_chat)
    (st : server) : server :=
  match sockets st !! s with
  | None => st
  | Some u =>
      match data with
      | None => socket_emit s (ErrorEvent "Failed to send message") st
      | Some c =>
          let messageEvent :=
            {| webinar_id := chat_webinar_id c;
               message_text := chat_message_text c;
               sender_id := uid u;
               sender_username := username u;
               sent_at := clock h 0 |} in
          io_to_emit (webinar_room (chat_webinar_id c)) (NewWebinarMessage messageEvent) st
      end
  end.

(** [join_webinar] and [leave_webinar] have no [try]: a payload that cannot
    be destructured is an uncaught exception, the result [None]. *)
Definition join_webinar (s : string) (data : option webinar_ref)
    (st : server) : option server :=
  match sockets st !! s with
  | None => Some st
  | Some _ =>
      d ← data;
      let i := ref_webinar_id d in
      Some (socket_emit s (WebinarJoined i "Successfully joined webinar")
              (join s (webinar_room i) st))
  end.

Definition leave_webinar (s : string) (data : option webinar_ref)
    (st : server) : option server :=
  match sockets st !! s with
  | None => Some st
  | Some _ =>
      d ← data;
      let i := ref_webinar_id d in
      Some (socket_emit s (WebinarLeft i "Left webinar")
              (leave s (webinar_room i) st))
  end.

(** ** The server as a transition system *)

Inductive inbound :=
| LogActivity (data : option activity_report)
| UpdateGoal (data : option goal_update)
| UpdateChallengeProgress (data : option challenge_update)
| WebinarMessage (data : option webinar_chat)
| JoinWebinar (data : option webinar_ref)
| LeaveWebinar (data : option webinar_ref).

Definition handle (h : host) (s : string) (ev : inbound) (st : server) : option server :=
  match ev with
  | LogActivity data => Some (log_activity h s data st)
  | UpdateGoal data => Some (update_goal h s data st)
  | UpdateChallengeProgress data => Some (update_challenge_progress h s data st)
  | WebinarMessage data => Some (webinar_message h s data st)
  | JoinWebinar data => join_webinar s data st
  | LeaveWebinar data => leave_webinar s data st
  end.

(** One turn of the event loop.  A connection attempt uses a fresh socket
    id; the host may change between turns (clock, users table). *)
Inductive step : server → server → Prop :=
| step_connect h s token st :
    sockets st !! s = None →
    step st (connect h s token st)
| step_inbound h s ev st st' :
    handle h s ev st = Some st' →
    step st st'
| step_rest name st :
    step st (io_emit (FeedEvent name) st)
| step_disconnect s st :
    step st (disconnect s st).

Inductive reachable : server → Prop :=
| reachable_initial : reachable initial
| reachable_step st st' : reachable st → step st st' → reachable st'.

(** Bidirectional consistency of the room registry. *)
Definition consistent (st : server) : Prop :=
  ∀ s room, s ∈ members st room ↔ room ∈ rooms_of st s.

(** Every connected socket is a member of the private room of its user. *)
Definition in_private_rooms (st : server) : Prop :=
  ∀ s u, sockets st !! s = Some u → s ∈ members st (user_room u).

(** ** A sample host and a sample run, for concrete evaluation *)

Definition alice : user :=
  {| uid := "u1"; username := "alice"; email := "alice@example.com"; created_at := 0 |}.

Definition bob : user :=
  {| uid := "u2"; username := "bob"; email := "bob@example.com"; created_at := 0 |}.

Definition sample_host : host :=
  {| clock := λ k, (1000 + Z.of_nat k)%Z;
     uuid := λ k, "uuid-" +:+ pretty k;
     random := λ _, 0.5%float;
     builtin_get := λ _ _, Some VUndefined;
     jwt_verify := λ t,
       if String.eqb t "alice-token" then Some {| decoded_user_id := Some "u1" |}
       else if String.eqb t "bob-token" then Some {| decoded_user_id := Some "u2" |}
       else if String.eqb t "ghost-token" then Some {| decoded_user_id := Some "u9" |}
       else None;
     select_user := λ i,
       match i with
       | Some k => if String.eqb k "u1" then Some [alice]
                   else if String.eqb k "u2" then Some [bob] else Some []
       | None => Some []
       end |}.

(** Alice connects from two devices, Bob from one. *)
Definition three_sockets : server :=
  connect sample_host "s3" (Some "bob-token")
    (connect sample_host "s2" (Some "alice-token")
       (connect sample_host "s1" (Some "alice-token") initial)).

(** Alice's first device and Bob join webinar 42; Alice's second device
    does not. *)
Definition webinar_42 : webinar_ref := {| ref_webinar_id := IdNum 42 |}.

Definition in_webinar : server :=
  default three_sockets
    (join_webinar "s1" (Some webinar_42) three_sockets
       ≫= join_webinar "s3" (Some webinar_42)).

(** ** Ways a credential fails *)

Definition credential_missing (token : option string) : Prop :=
  token = None ∨ token = Some "".

(** The verifier throws: bad signature, expired or not a token at all. *)
Definition credential_malformed (h : host) (token : option string) : Prop :=
  ∃ t, token = Some t ∧ jwt_verify h t = None.

(** The token verifies but the users table has no row for it. *)
Definition identity_unknown (h : host) (token : option string) : Prop :=
  ∃ t d, token = Some t ∧ jwt_verify h t = Some d ∧
         (select_user h (decoded_user_id d) = Some [] ∨
          select_user h (decoded_user_id d) = None).

(** ** Outcomes of [log_activity] *)

(** The run was rejected: the only emit is the [error] event, and it goes
    to the originating connection alone. *)
Definition rejected (s : string) (st st' : server) : Prop :=
  log st' = log st ++ [({[s]}, ErrorEvent "Failed to log activity")].

(** The run published [e] to every connection and then sent [ru] to the
    originating connection. *)
Definition published (s : string) (e : activity_event) (ru : recommendations_update)
    (st st' : server) : Prop :=
  log st' = log st ++ [(dom (sockets st), ActivityLogged e);
                       ({[s]}, RecommendationUpdated ru)].

Definition car_report : activity_report :=
  {| report_category := Some "transportation";
     report_quantity := Some 10%float;
     report_unit := Some "car_km";
     report_description := Some "commute" |}.

Definition negative_report : activity_report :=
  {| report_category := Some "transportation";
     report_quantity := Some (-5)%float;
     report_unit := Some "car_km";
     report_description := None |}.

Definition inherited_unit_report : activity_report :=
  {| report_category := Some "transportation";
     report_quantity := Some 10%float;
     report_unit := Some "toString";
     report_description := None |}.

Definition empty_category_report : activity_report :=
  {| report_category := Some "";
     report_quantity := Some 1%float;
     report_unit := Some "car_km";
     report_description := None |}.

Definition diet_report : activity_report :=
  {| report_category := Some "diet";
     report_quantity := Some 2%float;
     report_unit := Some "beef_kg";
     report_description := None |}.

(** ** Further invariants and samples *)

(** Every member of a room is a connected socket, and the room is either
    the private room of its user or a webinar room. *)
Definition members_are_connected (st : server) : Prop :=
  ∀ s room, s ∈ members st room →
    ∃ u, sockets st !! s = Some u ∧
         (room = user_room u ∨ ∃ i, room = webinar_room i).

Definition energy_goal : goal_update :=
  {| update_category := Some "energy";
     update_target := Some 100%float;
     update_timeframe := Some "1 month" |}.

Definition hi_chat : webinar_chat :=
  {| chat_webinar_id := IdNum 42; chat_message_text := Some "hi" |}.

Definition unknown_pair_report : activity_report :=
  {| report_category := Some "shopping";
     report_quantity := Some 3%float;
     report_unit := Some "bags";
     report_description := None |}.

Definition no_quantity_report : activity_report :=
  {| report_category := Some "energy";
     report_quantity := None;
     report_unit := Some "gas_m3";
     report_description := None |}.

(** ** The REST routes *)

(** A caught exception, as [createErrorResponse] reads it. *)
Record js_error := {
  error_name : string;
  error_message : string;
  error_stack : string
}.

(** A row of a query result: its columns in order, [None] for SQL NULL. *)
Definition row : Type := list (string * option string).

(** What the REST routes take from their collaborators, beside the [host]. *)
Record rest_env := {
  (** the exception a [catch] of the run receives, when one is thrown *)
  thrown : js_error;
  (** [pool.query(text, values)]: the rows, [None] when the query rejects *)
  pool_query : string → list string → option (list row);
  (** [jwt.sign({ user_id, email }, JWT_SECRET, { expiresIn: '7d' })] *)
  jwt_sign : option (option string) → option (option string) → string;
  (** [parseFloat] *)
  parseFloat : string → float;
  (** the [email()] check of the schema library *)
  is_email : string → bool;
  (** [z.coerce.date()]: the date of a column value, [None] when invalid *)
  coerce_date : option (option string) → option Z
}.

Record ErrorResponse := {
  success : bool;
  error_text : string;                (* [message] *)
  error_code : option string;
  details : option js_error;
  error_timestamp : Z
}.

Definition createErrorResponse (now : Z) (message : string)
    (error : option js_error) (errorCode : option string) : ErrorResponse :=
  {| success := false;
     error_text := message;
     error_code := if string_truthy errorCode then errorCode else None;
     details := error;
     error_timestamp := now |}.

(** What a route answers: [res.status(n).json(body)] with a body of the
    route's own type or with an error body, or [res.status(n).send()]. *)
Inductive reply (A : Type) :=
| Json (status : nat) (body : A)
| Failure (status : nat) (body : ErrorResponse)
| NoContent (status : nat).

Arguments Json {A} status body.
Arguments Failure {A} status body.
Arguments NoContent {A} status.

(** [s.split(' ')] *)
Fixpoint split_space (s : string) : list string :=
  match s with
  | "" => [""]
  | String c s' =>
      if Ascii.eqb c (Ascii.Ascii false false false false false true false false) then "" :: split_space s'
      else match split_space s' with
           | w :: ws => String c w :: ws
           | [] => [String c ""]
           end
  end.

(** [authHeader && authHeader.split(' ')[1]] *)
Definition header_token (authHeader : option string) : option string :=
  match authHeader with
  | None | Some "" => authHeader
  | Some hd => split_space hd !! 1
  end.

Inductive auth_outcome :=
| Next (u : user)                                   (* [req.user = rows[0]; next()] *)
| Denied (status : nat) (body : ErrorResponse).

Definition authenticateToken (h : host) (e : rest_env)
    (authHeader : option string) : auth_outcome :=
  match header_token authHeader with
  | None | Some "" =>
      Denied 401 (createErrorResponse (clock h 0) "Access token required"
                    None (Some "AUTH_TOKEN_REQUIRED"))
  | Some token =>
      let caught :=
        Denied 403 (createErrorResponse (clock h 0) "Invalid or expired token"
                      (Some (thrown e)) (Some "AUTH_TOKEN_INVALID")) in
      match jwt_verify h token with
      | Some decoded =>
          match select_user h (decoded_user_id decoded) with
          | Some (u :: _) => Next u
          | Some [] =>
              Denied 401 (createErrorResponse (clock h 0) "Invalid token"
                            None (Some "AUTH_TOKEN_INVALID"))
          | None => caught
          end
      | None => caught
      end
  end.

(** *** processCarbonOffsetPayment and POST /api/carbon-offset *)

Record project_details := {
  project_name : string;
  project_location : string;
  project_id : string
}.

Record offset_transaction := {
  transaction_id : string;
  payer_id : string;                   (* [user_id] *)
  amount_tons : float;
  cost_usd : float;
  payment_status : string;             (* [status] *)
  certificate_url : string;
  processed_at : Z;
  provider : string;
  project : project_details
}.

Definition processCarbonOffsetPayment (h : host) (user_id : string)
    (amount : float) (payment_method : string) : offset_transaction :=
  {| transaction_id := "co_" +:+ uuid h 0;
     payer_id := user_id;
     amount_tons := amount;
     cost_usd := PrimFloat.mul amount 15.50%float;
     payment_status := "completed";
     certificate_url := "https://picsum.photos/seed/cert_" +:+ user_id +:+ "/800/600";
     processed_at := clock h 0;
     provider := "GoldStandard Mock Provider";
     project :=
       {| project_name := "Renewable Energy Development Project";
          project_location := "Costa Rica";
          project_id := "GS-VER-1234" |} |}.

Record offset_receipt := {
  receipt_message : string;
  transaction : offset_transaction
}.

(** [!amount || amount <= 0] *)
Definition invalid_amount (amount : option float) : bool :=
  match amount with
  | None => true
  | Some a => negb (to_boolean (VNum a)) || PrimFloat.leb a 0
  end.

(** [amount] is the number of the request body, or absent. *)
Definition post_carbon_offset (h : host) (e : rest_env)
    (authHeader : option string) (amount : option float) : reply offset_receipt :=
  match authenticateToken h e authHeader with
  | Denied status body => Failure status body
  | Next u =>
      match amount with
      | Some a =>
          if invalid_amount amount then
            Failure 400 (createErrorResponse (clock h 0) "Valid amount is required"
                           None (Some "INVALID_AMOUNT"))
          else
            Json 200
              {| receipt_message := "Carbon offset purchase completed";
                 transaction := processCarbonOffsetPayment h (uid u) a "mock_payment" |}
      | None =>
          Failure 400 (createErrorResponse (clock h 0) "Valid amount is required"
                         None (Some "INVALID_AMOUNT"))
      end
  end.

(** *** DELETE /api/posts/:post_id *)

(** What a route that writes leaves behind: its answer, the statements it
    sent to the database, in order, and the socket server after its
    broadcasts. *)
Record outcome (A : Type) := {
  answer : reply A;
  statements : list (string * list string);
  server_after : server
}.

Arguments answer {A} o.
Arguments statements {A} o.
Arguments server_after {A} o.

Definition select_post_sql : string := "SELECT * FROM posts WHERE id = $1".
Definition delete_post_sql : string := "DELETE FROM posts WHERE id = $1".

(** [row.column === v] for a string [v] *)
Definition column_is (r : row) (column v : string) : bool :=
  match get_own r column with
  | Some (Some x) => String.eqb x v
  | _ => false
  end.

Definition delete_post (h : host) (e : rest_env) (authHeader : option string)
    (post_id : string) (st : server) : outcome unit :=
  match authenticateToken h e authHeader with
  | Denied status body =>
      {| answer := Failure status body; statements := []; server_after := st |}
  | Next u =>
      let caught sent :=
        {| answer := Failure 500 (createErrorResponse (clock h 0) "Failed to delete post"
                                    (Some (thrown e)) (Some "DELETE_POST_ERROR"));
           statements := sent;
           server_after := st |} in
      match pool_query e select_post_sql [post_id] with
      | None => caught [(select_post_sql, [post_id])]
      | Some [] =>
          {| answer := Failure 404 (createErrorResponse (clock h 0) "Post not found"
                                      None (Some "POST_NOT_FOUND"));
             statements := [(select_post_sql, [post_id])];
             server_after := st |}
      | Some (existing :: _) =>
          if column_is existing "user_id" (uid u) then
            match pool_query e delete_post_sql [post_id] with
            | None => caught [(select_post_sql, [post_id]); (delete_post_sql, [post_id])]
            | Some _ =>
                {| answer := NoContent 204;
                   statements := [(select_post_sql, [post_id]); (delete_post_sql, [post_id])];
                   server_after := io_emit (FeedEvent "post.deleted") st |}
            end
          else
            {| answer := Failure 403 (createErrorResponse (clock h 0) "Unauthorized"
                                        None (Some "UNAUTHORIZED"));
               statements := [(select_post_sql, [post_id])];
               server_after := st |}
      end
  end.

(** *** userEntitySchema, GET /api/users/:user_id and POST /api/auth/login *)

Record user_entity := {
  entity_id : string;
  entity_username : string;
  entity_email : string;
  entity_password_hash : string;
  entity_created_at : Z
}.

(** [z.string()]: the column must be there and hold a string. *)
Definition z_string (r : row) (column : string) : option string :=
  match get_own r column with
  | Some (Some v) => Some v
  | _ => None
  end.

(** [.min(lo)] and [.max(hi)] on the length of a string *)
Definition z_min (lo : nat) (v : string) : option string :=
  if Nat.leb lo (String.length v) then Some v else None.

Definition z_max (hi : nat) (v : string) : option string :=
  if Nat.leb (String.length v) hi then Some v else None.

(** a refinement such as [.email()] *)
Definition z_check (ok : string → bool) (v : string) : option string :=
  if ok v then Some v else None.

(** [userEntitySchema.parse(row)]; [None] when it throws. *)
Definition userEntitySchema (e : rest_env) (r : row) : option user_entity :=
  id ← z_string r "id";
  username ← z_string r "username";
  _ ← z_min 1 username;
  _ ← z_max 50 username;
  email ← z_string r "email";
  _ ← z_min 1 email;
  _ ← z_max 100 email;
  _ ← z_check (is_email e) email;
  password_hash ← z_string r "password_hash";
  _ ← z_min 8 password_hash;
  created ← coerce_date e (get_own r "created_at");
  Some {| entity_id := id;
          entity_username := username;
          entity_email := email;
          entity_password_hash := password_hash;
          entity_created_at := created |}.

Definition select_user_sql : string :=
  "SELECT id, username, email, created_at FROM users WHERE id = $1".

Definition get_user (h : host) (e : rest_env) (user_id : string) : reply user_entity :=
  let caught :=
    Failure 500 (createErrorResponse (clock h 0) "Failed to get user"
                   (Some (thrown e)) (Some "GET_USER_ERROR")) in
  match pool_query e select_user_sql [user_id] with
  | None => caught
  | Some [] =>
      Failure 404 (createErrorResponse (clock h 0) "User not found"
                     None (Some "USER_NOT_FOUND"))
  | Some (r :: _) =>
      match userEntitySchema e r with
      | Some entity => Json 200 entity
      | None => caught
      end
  end.



Definition select_by_email_sql : string := "SELECT * FROM users WHERE email = $1".


(** *** GET /api/marketplace *)

Record product := {
  product_id : string;
  seller_id : string;                  (* [user_id] *)
  product_title : string;
  product_content : string;
  product_image_url : string;
  listed_at : Z;                       (* [created_at] *)
  product_category : string;
  price : float;
  impact_score : float;
  co2_savings_per_year : float
}.

Definition mockProducts (h : host) : list product :=
  [ {| product_id := uuid h 0;
       seller_id := "marketplace";
       product_title := "Bamboo Reusable Straws Set";
       product_content := "Eco-friendly bamboo straws with cleaning brush. Perfect replacement for plastic straws.";
       product_image_url := "https://picsum.photos/seed/product1/300/300";
       listed_at := clock h 0;
       product_category := "home";
       price := 12.99%float;
       impact_score := 8.5%float;
       co2_savings_per_year := 2.3%float |};
    {| product_id := uuid h 1;
       seller_id := "marketplace";
       product_title := "Solar Phone Charger";
       product_content := "Portable solar panel charger for smartphones and small devices. Zero emissions charging.";
       product_image_url := "https://picsum.photos/seed/product2/300/300";
       listed_at := clock h 1;
       product_category := "electronics";
       price := 49.99%float;
       impact_score := 9.2%float;
       co2_savings_per_year := 15.7%float |};
    {| product_id := uuid h 2;
       seller_id := "marketplace";
       product_title := "Organic Cotton Tote Bag";
       product_content := "Durable organic cotton shopping bag. Supports sustainable farming practices.";
       product_image_url := "https://picsum.photos/seed/product3/300/300";
       listed_at := clock h 2;
       product_category := "fashion";
       price := 18.50%float;
       impact_score := 7.8%float;
       co2_savings_per_year := 5.2%float |} ].

(** The query string of the route; every parameter may be absent. *)
Record marketplace_query := {
  query_category : option string;
  price_min : option string;
  price_max : option string;
  impact_min : option string;
  impact_max : option string
}.

(** [if (param) list = list.filter(keep)] *)
Definition filter_if (param : option string) (keep : product → bool)
    (l : list product) : list product :=
  if string_truthy param then List.filter keep l else l.

Definition get_marketplace (h : host) (e : rest_env) (q : marketplace_query)
    : reply (list product) :=
  let bound p := parseFloat e (property_key p) in
  let l0 := mockProducts h in
  let l1 := filter_if (query_category q)
              (λ p, strict_eq (product_category p) (query_category q)) l0 in
  let l2 := filter_if (price_min q)
              (λ p, PrimFloat.leb (bound (price_min q)) (price p)) l1 in
  let l3 := filter_if (price_max q)
              (λ p, PrimFloat.leb (price p) (bound (price_max q))) l2 in
  let l4 := filter_if (impact_min q)
              (λ p, PrimFloat.leb (bound (impact_min q)) (impact_score p)) l3 in
  let l5 := filter_if (impact_max q)
              (λ p, PrimFloat.leb (impact_score p) (bound (impact_max q))) l4 in
  Json 200 l5.

(** A sample environment for the routes. *)
Definition sample_rest : rest_env :=
  {| thrown := {| error_name := "Error"; error_message := "boom"; error_stack := "" |};
     pool_query := λ text values,
       if String.eqb text select_post_sql then
         Some [ [("id", Some "post1"); ("user_id", Some "u1");
                 ("title", Some "First Post"); ("content", Some "hello");
                 ("image_url", None); ("created_at", Some "2023-01-01")] ]
       else if String.eqb text select_user_sql then
         Some [ [("id", Some "u1"); ("username", Some "alice");
                 ("email", Some "alice@example.com");
                 ("created_at", Some "2023-01-01")] ]
       else if String.eqb text select_by_email_sql then
         Some [ [("id", Some "u1"); ("username", Some "alice");
                 ("email", Some "alice@example.com");
                 ("password_hash", Some "password123");
                 ("created_at", Some "2023-01-01")] ]
       else Some [];
     jwt_sign := λ _ _, "alice-token";
     parseFloat := λ t, if String.eqb t "15" then 15%float
                        else if String.eqb t "9" then 9%float else nan;
     is_email := λ _, true;
     coerce_date := λ v, match v with Some _ => Some 0%Z | None => None end |}.

Fixpoint has_space (s : string) : bool :=
  match s with
  | "" => false
  | String c s' =>
      Ascii.eqb c (Ascii.Ascii false false false false false true false false)
      || has_space s'
  end.

(** A product passes every filter the query gives. *)
Definition passes (e : rest_env) (q : marketplace_query) (p : product) : Prop :=
  (string_truthy (query_category q) = true →
     Some (product_category p) = query_category q) ∧
  (string_truthy (price_min q) = true →
     PrimFloat.leb (parseFloat e (property_key (price_min q))) (price p) = true) ∧
  (string_truthy (price_max q) = true →
     PrimFloat.leb (price p) (parseFloat e (property_key (price_max q))) = true) ∧
  (string_truthy (impact_min q) = true →
     PrimFloat.leb (parseFloat e (property_key (impact_min q))) (impact_score p) = true) ∧
  (string_truthy (impact_max q) = true →
     PrimFloat.leb (impact_score p) (parseFloat e (property_key (impact_max q))) = true).

Definition cheap_and_green : marketplace_query :=
  {| query_category := None;
     price_min := None;
     price_max := Some "15";
     impact_min := Some "9";
     impact_max := None |}.

(** * Properties *)

(** ** Emitters and what a connection receives *)

Lemma received_emit_to (R : gset string) (p : packet) (st : server) (t : string) :
  received (emit_to R p st) t =
  received st t ++ (if decide (t ∈ R) then [p] else []).
Proof.
  unfold received, emit_to; simpl.
  rewrite List.filter_app, fmap_app; simpl.
  destruct (decide (t ∈ R)) as [Hin | Hout].
  - rewrite bool_decide_eq_true_2 by exact Hin. reflexivity.
  - rewrite bool_decide_eq_false_2 by exact Hout. reflexivity.
Qed.

Lemma received_socket_emit (s : string) (p : packet) (st : server) (t : string) :
  received (socket_emit s p st) t =
  received st t ++ (if decide (t = s) then [p] else []).
Proof.
  unfold socket_emit. rewrite received_emit_to.
  destruct (decide (t ∈ ({[s]} : gset string))) as [Hin | Hout];
    destruct (decide (t = s)) as [Heq | Hne]; try reflexivity; set_solver.
Qed.

Lemma received_io_emit (p : packet) (st : server) (t : string) :
  received (io_emit p st) t =
  received st t ++ (if decide (is_Some (sockets st !! t)) then [p] else []).
Proof.
  unfold io_emit. rewrite received_emit_to.
  destruct (decide (t ∈ dom (sockets st))) as [Hin | Hout];
    destruct (decide (is_Some (sockets st !! t))) as [Hs | Hn]; try reflexivity.
  - apply elem_of_dom in Hin. contradiction.
  - apply elem_of_dom in Hs. contradiction.
Qed.

Lemma received_io_to_emit (room : string) (p : packet) (st : server) (t : string) :
  received (io_to_emit room p st) t =
  received st t ++ (if decide (t ∈ members st room) then [p] else []).
Proof. apply received_emit_to. Qed.

(** ** The factor lookup *)

Lemma get_own_In {A : Type} (o : list (string * A)) (k : string) (v : A) :
  get_own o k = Some v → In (k, v) o.
Proof.
  induction o as [| [k' v'] o IH]; cbn [get_own]; [discriminate |].
  destruct (String.eqb_spec k' k) as [-> | _].
  - intros [= ->]. left. reflexivity.
  - intros H. right. exact (IH H).
Qed.

(** Every factor written in the table is truthy: [factor || 1] keeps it. *)
Lemma table_factor_truthy (c u : string) (f : float) :
  table_factor c u = Some f → js_or (VNum f) (VNum 1) = VNum f.
Proof.
  unfold table_factor.
  destruct (get_own emissionFactors c) as [t |] eqn:Ht; cbn [mbind option_bind];
    [| discriminate].
  intros Hu. apply get_own_In in Ht. apply get_own_In in Hu.
  unfold emissionFactors in Ht. cbn [In] in Ht.
  repeat (destruct Ht as [[= <- <-] | Ht]; [cbn [In] in Hu |]); try contradiction;
    repeat (destruct Hu as [[= <- <-] | Hu]; [reflexivity |]); contradiction.
Qed.

Lemma lookup_factor_table (h : host) (c u : string) (f : float) :
  table_factor c u = Some f → lookup_factor h c u = Some (VNum f).
Proof.
  unfold table_factor, lookup_factor.
  destruct (get_own emissionFactors c) as [t |]; simpl; [| discriminate].
  intros ->. reflexivity.
Qed.

(** Outside the table and outside the inherited names the lookup is
    [undefined], so the factor is the default. *)
Lemma lookup_factor_default (h : host) (c u : string) :
  table_factor c u = None → inherited c = false → inherited u = false →
  lookup_factor h c u = Some VUndefined.
Proof.
  unfold table_factor, lookup_factor.
  destruct (get_own emissionFactors c) as [t |]; simpl.
  - intros -> _ ->. reflexivity.
  - intros _ -> _. reflexivity.
Qed.

Lemma calculateCarbonFootprint_table (h : host) (tick : nat)
    (c : option string) (q : option float) (u : option string) (loc : string) (f : float) :
  table_factor (property_key c) (property_key u) = Some f →
  co2_equivalent_kg <$> calculateCarbonFootprint h tick c q u loc =
  Some (js_mul (number_field q) (VNum f)).
Proof.
  intros Hf. unfold calculateCarbonFootprint.
  rewrite (lookup_factor_table h _ _ f Hf); simpl.
  rewrite (table_factor_truthy _ _ f Hf). reflexivity.
Qed.

(** ** log_activity *)

(** What an accepted run does, in one equation. *)
Lemma log_activity_accepted (h : host) (s : string) (u : user)
    (r : activity_report) (st : server) (fp : footprint) :
  sockets st !! s = Some u →
  calculateCarbonFootprint h 0 (report_category r) (report_quantity r)
    (report_unit r) "US" = Some fp →
  log_activity h s (Some r) st =
  socket_emit s
    (RecommendationUpdated
       (generatePersonalizedRecommendations h 2 (uid u) (report_category r)))
    (io_emit
       (ActivityLogged
          {| user_id := uid u;
             category := report_category r;
             impact := co2_equivalent_kg fp;
             timestamp := clock h 1;
             description := report_description r |}) st).
Proof.
  intros Hs Hfp. unfold log_activity. rewrite Hs, Hfp. reflexivity.
Qed.

Lemma calculateCarbonFootprint_lookup (h : host) (tick : nat)
    (c : option string) (q : option float) (u : option string) (loc : string) :
  co2_equivalent_kg <$> calculateCarbonFootprint h tick c q u loc =
  (λ v, js_mul (number_field q) (js_or v (VNum 1))) <$>
    lookup_factor h (property_key c) (property_key u).
Proof.
  unfold calculateCarbonFootprint.
  destruct (lookup_factor h (property_key c) (property_key u)); reflexivity.
Qed.

(** C1. For every activity report whose (category, unit) pair is in the
    static table with factor [f], [log_activity] publishes an event whose
    impact is the quantity times [f]. *)
Theorem log_activity_impact_is_quantity_times_factor (h : host) (s : string)
    (u : user) (r : activity_report) (st : server) (f : float) :
  sockets st !! s = Some u →
  table_factor (property_key (report_category r)) (property_key (report_unit r)) = Some f →
  published s
    {| user_id := uid u;
       category := report_category r;
       impact := PrimFloat.mul (to_number (number_field (report_quantity r))) f;
       timestamp := clock h 1;
       description := report_description r |}
    (generatePersonalizedRecommendations h 2 (uid u) (report_category r))
    st (log_activity h s (Some r) st).
Proof.
  intros Hs Hf.
  pose proof (calculateCarbonFootprint_table h 0 (report_category r)
                (report_quantity r) (report_unit r) "US" f Hf) as Hco2.
  destruct (calculateCarbonFootprint h 0 (report_category r) (report_quantity r)
              (report_unit r) "US") as [fp |] eqn:Hfp; [| discriminate Hco2].
  injection Hco2 as Hco2.
  rewrite (log_activity_accepted h s u r st fp Hs Hfp), Hco2.
  unfold published, socket_emit, io_emit, emit_to, js_mul; simpl.
  rewrite <- app_assoc. reflexivity.
Qed.

(** Transportation, 10 car_km at factor 0.2: the impact is 2.0. *)
Lemma car_report_impact_is_two :
  published "s1"
    {| user_id := "u1";
       category := Some "transportation";
       impact := 2%float;
       timestamp := 1001;
       description := Some "commute" |}
    (generatePersonalizedRecommendations sample_host 2 "u1" (Some "transportation"))
    three_sockets (log_activity sample_host "s1" (Some car_report) three_sockets).
Proof.
  exact (log_activity_impact_is_quantity_times_factor sample_host "s1" alice
           car_report three_sockets 0.2%float
           ltac:(vm_compute; reflexivity) ltac:(vm_compute; reflexivity)).
Defined.

(** X18. For a pair that is neither in the table nor an inherited name, the
    factor is the default 1: the report is published with impact
    quantity * 1. *)
Lemma log_activity_default_factor (h : host) (s : string) (u : user)
    (r : activity_report) (st : server) :
  sockets st !! s = Some u →
  table_factor (property_key (report_category r)) (property_key (report_unit r)) = None →
  inherited (property_key (report_category r)) = false →
  inherited (property_key (report_unit r)) = false →
  published s
    {| user_id := uid u;
       category := report_category r;
       impact := PrimFloat.mul (to_number (number_field (report_quantity r))) 1;
       timestamp := clock h 1;
       description := report_description r |}
    (generatePersonalizedRecommendations h 2 (uid u) (report_category r))
    st (log_activity h s (Some r) st).
Proof.
  intros Hs Hf Hc Hu.
  pose proof (calculateCarbonFootprint_lookup h 0 (report_category r)
                (report_quantity r) (report_unit r) "US") as Hco2.
  rewrite (lookup_factor_default h _ _ Hf Hc Hu) in Hco2.
  destruct (calculateCarbonFootprint h 0 (report_category r) (report_quantity r)
              (report_unit r) "US") as [fp |] eqn:Hfp; [| discriminate Hco2].
  injection Hco2 as Hco2.
  rewrite (log_activity_accepted h s u r st fp Hs Hfp), Hco2.
  unfold published, socket_emit, io_emit, emit_to, js_mul; simpl.
  rewrite <- app_assoc. reflexivity.
Qed.

Lemma nan_is_not_ten : nan ≠ PrimFloat.mul 10 1.
Proof.
  intros H. apply (f_equal PrimFloat.classify) in H.
  vm_compute in H. discriminate H.
Qed.

(** C2. The pair (transportation, toString) is not in the static table, yet
    the event published for quantity 10 does not carry the impact 10 * 1:
    the unit names a function inherited from [Object.prototype], which is
    truthy, so [|| 1] keeps it and the product is NaN. *)
Theorem log_activity_inherited_unit_gives_nan :
  table_factor "transportation" "toString" = None ∧
  published "s1"
    {| user_id := "u1";
       category := Some "transportation";
       impact := nan;
       timestamp := 1001;
       description := None |}
    (generatePersonalizedRecommendations sample_host 2 "u1" (Some "transportation"))
    three_sockets
    (log_activity sample_host "s1" (Some inherited_unit_report) three_sockets) ∧
  nan ≠ PrimFloat.mul 10 1.
Proof.
  split; [reflexivity |]. split; [| exact nan_is_not_ten].
  unfold published. vm_compute. reflexivity.
Qed.

(** C3 (as stated, refuted). A report with quantity -5 is not rejected: its
    event, with impact -1, reaches another user's connection. *)
Lemma negative_quantity_is_published :
  PrimFloat.ltb (-5) 0 = true ∧
  ¬ rejected "s1" three_sockets
      (log_activity sample_host "s1" (Some negative_report) three_sockets) ∧
  received (log_activity sample_host "s1" (Some negative_report) three_sockets) "s3" =
  [ActivityLogged
     {| user_id := "u1";
        category := Some "transportation";
        impact := (-1)%float;
        timestamp := 1001;
        description := None |}].
Proof.
  split; [reflexivity |]. split.
  - unfold rejected. intros H. apply (f_equal length) in H.
    vm_compute in H. discriminate H.
  - vm_compute. reflexivity.
Qed.

(** C3 (amended). [log_activity] validates nothing.  It is rejected, with
    the error sent to the originating connection alone and nothing
    broadcast, when the payload cannot be destructured or the factor lookup
    throws; every other report, whatever its quantity, category or missing
    fields, is published with impact quantity times factor. *)
Theorem log_activity_rejects_only_on_exception (h : host) (s : string)
    (u : user) (data : option activity_report) (st : server) :
  sockets st !! s = Some u →
  (data = None → rejected s st (log_activity h s data st)) ∧
  (∀ r, data = Some r →
     lookup_factor h (property_key (report_category r))
       (property_key (report_unit r)) = None →
     rejected s st (log_activity h s data st)) ∧
  (∀ r v, data = Some r →
     lookup_factor h (property_key (report_category r))
       (property_key (report_unit r)) = Some v →
     published s
       {| user_id := uid u;
          category := report_category r;
          impact := js_mul (number_field (report_quantity r)) (js_or v (VNum 1));
          timestamp := clock h 1;
          description := report_description r |}
       (generatePersonalizedRecommendations h 2 (uid u) (report_category r))
       st (log_activity h s data st)).
Proof.
  intros Hs. repeat split.
  - intros ->. unfold rejected, log_activity. rewrite Hs. reflexivity.
  - intros r -> Hl. unfold rejected, log_activity, calculateCarbonFootprint.
    rewrite Hs, Hl. reflexivity.
  - intros r v -> Hl. unfold published, log_activity, calculateCarbonFootprint.
    rewrite Hs, Hl; simpl. rewrite <- app_assoc. reflexivity.
Qed.

Lemma unreadable_payload_is_rejected :
  rejected "s1" three_sockets (log_activity sample_host "s1" None three_sockets).
Proof.
  exact (proj1 (log_activity_rejects_only_on_exception sample_host "s1" alice
                  None three_sockets ltac:(vm_compute; reflexivity)) eq_refl).
Defined.

(** C4 (as stated, refuted). Alice's second connection is in her private
    room, and after her first connection logs an activity it has received
    the activity event but no recommendation refresh. *)
Lemma second_device_gets_no_refresh :
  sockets three_sockets !! "s1" = Some alice ∧
  sockets three_sockets !! "s2" = Some alice ∧
  "s2" ∈ members (log_activity sample_host "s1" (Some car_report) three_sockets)
          (user_room alice) ∧
  ∀ ru, RecommendationUpdated ru ∉
        received (log_activity sample_host "s1" (Some car_report) three_sockets) "s2".
Proof.
  split; [vm_compute; reflexivity |]. split; [vm_compute; reflexivity |]. split.
  - refine (bool_decide_unpack _ _). vm_compute. exact I.
  - intros ru Hin.
    assert (received (log_activity sample_host "s1" (Some car_report) three_sockets) "s2" =
            [ActivityLogged
               {| user_id := "u1"; category := Some "transportation";
                  impact := 2%float; timestamp := 1001;
                  description := Some "commute" |}]) as Hr
      by (vm_compute; reflexivity).
    rewrite Hr in Hin. apply list_elem_of_singleton in Hin. discriminate Hin.
Qed.

(** C4 (amended). An accepted report is published to every connection as an
    event carrying the user identity, category, impact, timestamp and
    description; the recommendation refresh that follows is sent to the
    originating connection only. *)
Theorem log_activity_publishes_then_refreshes_origin (h : host) (s : string)
    (u : user) (r : activity_report) (st : server) (fp : footprint) (t : string) :
  sockets st !! s = Some u →
  calculateCarbonFootprint h 0 (report_category r) (report_quantity r)
    (report_unit r) "US" = Some fp →
  received (log_activity h s (Some r) st) t =
  received st t
  ++ (if decide (is_Some (sockets st !! t))
      then [ActivityLogged
              {| user_id := uid u;
                 category := report_category r;
                 impact := co2_equivalent_kg fp;
                 timestamp := clock h 1;
                 description := report_description r |}]
      else [])
  ++ (if decide (t = s)
      then [RecommendationUpdated
              (generatePersonalizedRecommendations h 2 (uid u) (report_category r))]
      else []).
Proof.
  intros Hs Hfp.
  rewrite (log_activity_accepted h s u r st fp Hs Hfp).
  rewrite received_socket_emit, received_io_emit, <- app_assoc. reflexivity.
Qed.

Lemma origin_receives_event_and_refresh :
  received (log_activity sample_host "s1" (Some car_report) three_sockets) "s1" =
  [ActivityLogged
     {| user_id := "u1";
        category := Some "transportation";
        impact := 2%float;
        timestamp := 1001;
        description := Some "commute" |};
   RecommendationUpdated
     (generatePersonalizedRecommendations sample_host 2 "u1" (Some "transportation"))].
Proof.
  rewrite (log_activity_publishes_then_refreshes_origin sample_host "s1" alice
             car_report three_sockets
             {| fp_activity_type := Some "transportation";
                fp_quantity := Some 10%float;
                fp_unit := Some "car_km";
                co2_equivalent_kg := 2%float;
                calculation_method := "IPCC Guidelines";
                location_factor := 1%float;
                calculated_at := 1000 |} "s1"
             ltac:(vm_compute; reflexivity) ltac:(vm_compute; reflexivity)).
  vm_compute. reflexivity.
Defined.

(** ** The recommendation refresh *)

Lemma filter_no_such_category (h : host) (c : string) :
  c ≠ "energy" → c ≠ "transportation" → c ≠ "waste" →
  List.filter (λ x, String.eqb (rec_category x) c) (mockRecommendations h) = [].
Proof.
  intros He Ht Hw. unfold mockRecommendations.
  cbn [List.filter rec_category].
  rewrite (proj2 (String.eqb_neq "energy" c)) by congruence.
  rewrite (proj2 (String.eqb_neq "transportation" c)) by congruence.
  rewrite (proj2 (String.eqb_neq "waste" c)) by congruence.
  reflexivity.
Qed.

(** C10 (as stated, refuted). With the empty string as category the ingest
    succeeds, no entry of the static list has that category, and the
    refresh nevertheless carries the three entries of the list. *)
Lemma empty_category_gets_whole_list :
  published "s1"
    {| user_id := "u1";
       category := Some "";
       impact := 1%float;
       timestamp := 1001;
       description := None |}
    (generatePersonalizedRecommendations sample_host 2 "u1" (Some ""))
    three_sockets
    (log_activity sample_host "s1" (Some empty_category_report) three_sockets) ∧
  List.filter (λ x, String.eqb (rec_category x) "") (mockRecommendations sample_host) = [] ∧
  length (recommendations
            (generatePersonalizedRecommendations sample_host 2 "u1" (Some ""))) = 3.
Proof.
  split; [unfold published; vm_compute; reflexivity |].
  split; reflexivity.
Qed.

(** C10 (amended). After a successful ingest the refresh sent to the
    originating connection carries, for a non-empty category [c], exactly
    the entries of the static list whose category is [c], hence none when [c]
    is not energy, transportation or waste (such as diet); for an empty or
    absent category it carries the whole list. *)
Theorem log_activity_refresh_by_category (h : host) (s : string) (u : user)
    (r : activity_report) (st : server) (fp : footprint) :
  sockets st !! s = Some u →
  calculateCarbonFootprint h 0 (report_category r) (report_quantity r)
    (report_unit r) "US" = Some fp →
  let ru := generatePersonalizedRecommendations h 2 (uid u) (report_category r) in
  published s
    {| user_id := uid u;
       category := report_category r;
       impact := co2_equivalent_kg fp;
       timestamp := clock h 1;
       description := report_description r |}
    ru st (log_activity h s (Some r) st) ∧
  (∀ c, report_category r = Some c → c ≠ "" →
     recommendations ru =
       List.filter (λ x, String.eqb (rec_category x) c) (mockRecommendations h) ∧
     (c ≠ "energy" → c ≠ "transportation" → c ≠ "waste" → recommendations ru = [])) ∧
  (report_category r = None ∨ report_category r = Some "" →
     recommendations ru = mockRecommendations h).
Proof.
  intros Hs Hfp ru. split; [| split].
  - rewrite (log_activity_accepted h s u r st fp Hs Hfp).
    unfold published, socket_emit, io_emit, emit_to; simpl.
    rewrite <- app_assoc. reflexivity.
  - intros c Hc Hne. subst ru. rewrite Hc.
    assert (recommendations (generatePersonalizedRecommendations h 2 (uid u) (Some c)) =
            List.filter (λ x, String.eqb (rec_category x) c) (mockRecommendations h)) as Hrec.
    { unfold generatePersonalizedRecommendations, string_truthy, strict_eq.
      cbn [recommendations].
      rewrite (proj2 (String.eqb_neq c "")) by exact Hne. reflexivity. }
    split; [exact Hrec |].
    intros He Ht Hw. rewrite Hrec. apply filter_no_such_category; assumption.
  - intros [Hc | Hc]; subst ru; rewrite Hc; reflexivity.
Qed.

Lemma diet_report_gets_no_recommendation :
  recommendations (generatePersonalizedRecommendations sample_host 2 (uid alice)
                     (report_category diet_report)) = [].
Proof.
  exact (proj2 (proj1 (proj2 (log_activity_refresh_by_category sample_host "s1" alice
           diet_report three_sockets
           {| fp_activity_type := Some "diet";
              fp_quantity := Some 2%float;
              fp_unit := Some "beef_kg";
              co2_equivalent_kg := 120%float;
              calculation_method := "IPCC Guidelines";
              location_factor := 1%float;
              calculated_at := 1000 |}
           ltac:(vm_compute; reflexivity) ltac:(vm_compute; reflexivity)))
         "diet" eq_refl ltac:(discriminate))
         ltac:(discriminate) ltac:(discriminate) ltac:(discriminate)).
Defined.

(** ** Rooms *)

Lemma members_join (s room room' : string) (st : server) :
  members (join s room st) room' =
  if decide (room = room') then {[s]} ∪ members st room else members st room'.
Proof.
  unfold members at 1, join; cbn [rooms].
  rewrite lookup_insert. destruct (decide (room = room')); reflexivity.
Qed.

Lemma rooms_of_join (s s' room : string) (st : server) :
  rooms_of (join s room st) s' =
  if decide (s = s') then {[room]} ∪ rooms_of st s else rooms_of st s'.
Proof.
  unfold rooms_of at 1, join; cbn [sids].
  rewrite lookup_insert. destruct (decide (s = s')); reflexivity.
Qed.

Lemma join_idempotent (s room : string) (st : server) :
  join s room (join s room st) = join s room st.
Proof.
  unfold join at 1. rewrite members_join, rooms_of_join.
  rewrite !decide_True by reflexivity.
  unfold join; cbn [sockets rooms sids log].
  rewrite !insert_insert_eq.
  rewrite !(assoc_L (∪)), !union_idemp_L. reflexivity.
Qed.

Lemma members_emit_to (R : gset string) (p : packet) (st : server) (room : string) :
  members (emit_to R p st) room = members st room.
Proof. reflexivity. Qed.

(** C9. Joining a room twice in a row leaves the server exactly as joining
    it once does, for the room's member set and for the connection's
    membership set; through the [join_webinar] handler both calls return
    and the second changes neither map. *)
Theorem join_twice_is_join_once (s room : string) (d : webinar_ref) (st : server) :
  join s room (join s room st) = join s room st ∧
  members (join s room (join s room st)) room = members (join s room st) room ∧
  rooms_of (join s room (join s room st)) s = rooms_of (join s room st) s ∧
  ∃ st1 st2,
    join_webinar s (Some d) st = Some st1 ∧
    join_webinar s (Some d) st1 = Some st2 ∧
    rooms st2 = rooms st1 ∧ sids st2 = sids st1.
Proof.
  split; [apply join_idempotent |].
  split; [rewrite join_idempotent; reflexivity |].
  split; [rewrite join_idempotent; reflexivity |].
  unfold join_webinar.
  destruct (sockets st !! s) as [u |] eqn:Hs.
  - eexists _, _. split; [reflexivity |].
    cbn [mbind option_bind]. unfold socket_emit, emit_to at 1; cbn [sockets].
    unfold join at 1; cbn [sockets]. rewrite Hs.
    split; [reflexivity |].
    cbn [rooms sids emit_to].
    change (rooms (join s (webinar_room (ref_webinar_id d))
                     (emit_to {[s]} (WebinarJoined (ref_webinar_id d) "Successfully joined webinar")
                        (join s (webinar_room (ref_webinar_id d)) st))))
      with (rooms (join s (webinar_room (ref_webinar_id d))
                     (join s (webinar_room (ref_webinar_id d)) st))).
    change (sids (join s (webinar_room (ref_webinar_id d))
                    (emit_to {[s]} (WebinarJoined (ref_webinar_id d) "Successfully joined webinar")
                       (join s (webinar_room (ref_webinar_id d)) st))))
      with (sids (join s (webinar_room (ref_webinar_id d))
                    (join s (webinar_room (ref_webinar_id d)) st))).
    rewrite join_idempotent. split; reflexivity.
  - exists st, st. rewrite Hs. repeat split; reflexivity.
Qed.

(** ** Room-scoped delivery *)

(** C5. When A and B are members of room webinar_42 and C is not, the
    message "hi" that A sends to webinar 42 reaches B as a
    new_webinar_message carrying A's identity and the text, and C receives
    nothing. *)
Theorem webinar_message_reaches_members_only (h : host) (st : server)
    (A B C : string) (uA : user) :
  sockets st !! A = Some uA →
  A ∈ members st "webinar_42" →
  B ∈ members st "webinar_42" →
  C ∉ members st "webinar_42" →
  let st' := webinar_message h A
               (Some {| chat_webinar_id := IdNum 42; chat_message_text := Some "hi" |}) st in
  received st' B =
    received st B ++
    [NewWebinarMessage
       {| webinar_id := IdNum 42;
          message_text := Some "hi";
          sender_id := uid uA;
          sender_username := username uA;
          sent_at := clock h 0 |}] ∧
  received st' C = received st C.
Proof.
  intros HA _ HB HC st'. subst st'. unfold webinar_message. rewrite HA.
  cbn [chat_webinar_id chat_message_text].
  change (webinar_room (IdNum 42)) with "webinar_42".
  rewrite !received_io_to_emit.
  rewrite (decide_True _ _ HB), (decide_False _ _ HC), app_nil_r.
  split; reflexivity.
Qed.

Lemma webinar_message_sample :
  received (webinar_message sample_host "s1"
              (Some {| chat_webinar_id := IdNum 42; chat_message_text := Some "hi" |})
              in_webinar) "s3" =
    [WebinarJoined (IdNum 42) "Successfully joined webinar";
     NewWebinarMessage
       {| webinar_id := IdNum 42;
          message_text := Some "hi";
          sender_id := "u1";
          sender_username := "alice";
          sent_at := 1000 |}] ∧
  received (webinar_message sample_host "s1"
              (Some {| chat_webinar_id := IdNum 42; chat_message_text := Some "hi" |})
              in_webinar) "s2" = [].
Proof.
  destruct (webinar_message_reaches_members_only sample_host in_webinar
              "s1" "s3" "s2" alice
              ltac:(vm_compute; reflexivity)
              ltac:(refine (bool_decide_unpack _ _); vm_compute; exact I)
              ltac:(refine (bool_decide_unpack _ _); vm_compute; exact I)
              ltac:(refine (bool_decide_unpack _ _); vm_compute; exact I))
    as [HB HC].
  split; [rewrite HB | rewrite HC]; vm_compute; reflexivity.
Defined.

(** C8. The goal.updated event of [update_goal], emitted with the scope of
    the user's private room, is delivered to every connection that is a
    member of room user_<u> and to no connection that is not. *)
Theorem update_goal_reaches_private_room_only (h : host) (s : string) (u : user)
    (g : goal_update) (st : server) :
  sockets st !! s = Some u →
  let st' := update_goal h s (Some g) st in
  let e := GoalUpdated
             {| goal_user_id := uid u;
                goal_category := update_category g;
                goal_target := update_target g;
                goal_timeframe := update_timeframe g;
                updated_at := clock h 0 |} in
  (∀ t, t ∈ members st (user_room u) → received st' t = received st t ++ [e]) ∧
  (∀ t, t ∉ members st (user_room u) → received st' t = received st t).
Proof.
  intros Hs st' e. subst st' e. unfold update_goal. rewrite Hs.
  split; intros t Ht; rewrite received_io_to_emit.
  - rewrite (decide_True _ _ Ht). reflexivity.
  - rewrite (decide_False _ _ Ht), app_nil_r. reflexivity.
Qed.

Lemma update_goal_sample :
  received (update_goal sample_host "s1"
              (Some {| update_category := Some "energy";
                       update_target := Some 100%float;
                       update_timeframe := Some "1 month" |}) three_sockets) "s2" =
    [GoalUpdated
       {| goal_user_id := "u1";
          goal_category := Some "energy";
          goal_target := Some 100%float;
          goal_timeframe := Some "1 month";
          updated_at := 1000 |}] ∧
  received (update_goal sample_host "s1"
              (Some {| update_category := Some "energy";
                       update_target := Some 100%float;
                       update_timeframe := Some "1 month" |}) three_sockets) "s3" = [].
Proof.
  destruct (update_goal_reaches_private_room_only sample_host "s1" alice
              {| update_category := Some "energy";
                 update_target := Some 100%float;
                 update_timeframe := Some "1 month" |} three_sockets
              ltac:(vm_compute; reflexivity)) as [Hin Hout].
  split.
  - rewrite (Hin "s2" ltac:(refine (bool_decide_unpack _ _); vm_compute; exact I)).
    vm_compute. reflexivity.
  - rewrite (Hout "s3" ltac:(refine (bool_decide_unpack _ _); vm_compute; exact I)).
    vm_compute. reflexivity.
Defined.

(** ** Authentication and connection *)

(** X19. The middleware accepts only a non-empty token that verifies and
    whose user id selects a row; the identity bound is the first such row. *)
Lemma io_use_accepts_only_known (h : host) (token : option string) (u : user) :
  io_use h token = Accepted u →
  ∃ t d rows, token = Some t ∧ t ≠ "" ∧ jwt_verify h t = Some d ∧
              select_user h (decoded_user_id d) = Some (u :: rows).
Proof.
  unfold io_use.
  destruct token as [t |]; [| intros H; discriminate H].
  assert (t ≠ "" →
          match jwt_verify h t with
          | Some decoded =>
              match select_user h (decoded_user_id decoded) with
              | Some (row :: _) => Accepted row
              | _ => Refused "Authentication error"
              end
          | None => Refused "Authentication error"
          end = Accepted u →
          ∃ t' d rows, Some t = Some t' ∧ t' ≠ "" ∧ jwt_verify h t' = Some d ∧
                       select_user h (decoded_user_id d) = Some (u :: rows)) as Hgo;
    [| destruct t as [| a t']; [intros H; discriminate H | apply Hgo; discriminate]].
  intros Hne.
  destruct (jwt_verify h t) as [d |] eqn:Hv; [| intros H; discriminate H].
  destruct (select_user h (decoded_user_id d)) as [[| row rows] |] eqn:Hq;
    intros H; try discriminate H.
  injection H as ->. exists t, d, rows. repeat split; assumption.
Qed.

(** C6. A connection attempt whose credential is missing, malformed, or
    does not resolve to a known user is answered with the authentication
    error, and the server is left as it was: the connection is not
    registered and no identity is bound to it. *)
Theorem io_use_refuses_bad_credential (h : host) (s : string)
    (token : option string) (st : server) :
  credential_missing token ∨ credential_malformed h token ∨ identity_unknown h token →
  io_use h token = Refused "Authentication error" ∧
  connect h s token st = st ∧
  sockets (connect h s token st) !! s = sockets st !! s.
Proof.
  intros Hbad.
  assert (io_use h token = Refused "Authentication error") as Hr.
  { unfold io_use.
    destruct Hbad as [[-> | ->] | [(t & -> & Hv) | (t & d & -> & Hv & Hq)]].
    - reflexivity.
    - reflexivity.
    - destruct t; [reflexivity |]. rewrite Hv. reflexivity.
    - destruct t; [reflexivity |]. rewrite Hv.
      destruct Hq as [-> | ->]; reflexivity. }
  unfold connect. rewrite Hr. repeat split; reflexivity.
Qed.

Lemma io_use_refuses_sample :
  io_use sample_host (Some "ghost-token") = Refused "Authentication error" ∧
  connect sample_host "s4" (Some "ghost-token") three_sockets = three_sockets ∧
  sockets (connect sample_host "s4" (Some "ghost-token") three_sockets) !! "s4" =
  sockets three_sockets !! "s4".
Proof.
  apply (io_use_refuses_bad_credential sample_host "s4" (Some "ghost-token") three_sockets).
  right. right. exists "ghost-token", {| decoded_user_id := Some "u9" |}.
  split; [reflexivity |]. split; [reflexivity |]. left. reflexivity.
Defined.

Lemma elem_of_members_join (s room : string) (st : server) :
  s ∈ members (join s room st) room.
Proof. rewrite members_join, decide_True by reflexivity. set_solver. Qed.

Lemma elem_of_rooms_of_join (s room : string) (st : server) :
  room ∈ rooms_of (join s room st) s.
Proof. rewrite rooms_of_join, decide_True by reflexivity. set_solver. Qed.

(** C7. A connection whose credential validates is bound to the resolved
    user and joined to its private room user_<id> by the connection step
    itself; before that step no inbound event from it is processed. *)
Theorem connect_binds_and_joins_private_room (h : host) (s : string)
    (token : option string) (st : server) (u : user) :
  sockets st !! s = None →
  io_use h token = Accepted u →
  (∀ h' ev, handle h' s ev st = Some st) ∧
  sockets (connect h s token st) !! s = Some u ∧
  s ∈ members (connect h s token st) (user_room u) ∧
  user_room u ∈ rooms_of (connect h s token st) s ∧
  user_room u = "user_" +:+ uid u.
Proof.
  intros Hfresh Hok. split.
  - intros h' [data | data | data | data | data | data]; cbn [handle];
      unfold log_activity, update_goal, update_challenge_progress,
        webinar_message, join_webinar, leave_webinar;
      rewrite Hfresh; reflexivity.
  - unfold connect. rewrite Hok. unfold on_connection.
    split; [| split; [| split]].
    + unfold join; cbn [sockets]. apply lookup_insert_eq.
    + apply elem_of_members_join.
    + apply elem_of_rooms_of_join.
    + reflexivity.
Qed.

Lemma connect_sample :
  sockets (connect sample_host "s1" (Some "alice-token") initial) !! "s1" = Some alice ∧
  "s1" ∈ members (connect sample_host "s1" (Some "alice-token") initial) "user_u1".
Proof.
  destruct (connect_binds_and_joins_private_room sample_host "s1"
              (Some "alice-token") initial alice
              ltac:(vm_compute; reflexivity) ltac:(vm_compute; reflexivity))
    as (_ & Hbound & Hjoined & _).
  split; [exact Hbound | exact Hjoined].
Defined.

(** ** Invariants of the reachable states *)

Lemma members_leave (s room room' : string) (st : server) :
  members (leave s room st) room' =
  if decide (room = room') then members st room ∖ {[s]} else members st room'.
Proof.
  unfold members, leave; cbn [rooms].
  destruct (rooms st !! room) as [m |] eqn:Hm.
  - cbn zeta. destruct (decide (m ∖ {[s]} = ∅)) as [He | Hne].
    + rewrite lookup_delete.
      destruct (decide (room = room')) as [<- | Hr]; [| reflexivity].
      cbn [default from_option id]. symmetry. exact He.
    + rewrite lookup_insert.
      destruct (decide (room = room')) as [<- | Hr]; reflexivity.
  - destruct (decide (room = room')) as [<- | Hr]; [| reflexivity].
    rewrite Hm; cbn [default from_option id].
    set_solver.
Qed.

Lemma rooms_of_leave (s s' room : string) (st : server) :
  rooms_of (leave s room st) s' =
  if decide (s = s') then rooms_of st s ∖ {[room]} else rooms_of st s'.
Proof.
  unfold rooms_of, leave; cbn [sids].
  rewrite lookup_alter.
  destruct (decide (s = s')) as [<- | Hs]; [| reflexivity].
  destruct (sids st !! s); cbn [fmap option_fmap option_map default from_option id];
    [reflexivity | set_solver].
Qed.

Lemma members_disconnect (s room : string) (st : server) :
  members (disconnect s st) room = members st room ∖ {[s]}.
Proof.
  unfold members, disconnect; cbn [rooms].
  rewrite lookup_omap.
  destruct (rooms st !! room) as [m |]; cbn [mbind option_bind default from_option id].
  - destruct (decide (m ∖ {[s]} = ∅)) as [He | Hne];
      cbn [default from_option id]; [symmetry; exact He | reflexivity].
  - set_solver.
Qed.

Lemma rooms_of_disconnect (s s' : string) (st : server) :
  rooms_of (disconnect s st) s' = if decide (s = s') then ∅ else rooms_of st s'.
Proof.
  unfold rooms_of, disconnect; cbn [sids].
  rewrite lookup_delete. destruct (decide (s = s')); reflexivity.
Qed.

Lemma consistent_join (s room : string) (st : server) :
  consistent st → consistent (join s room st).
Proof.
  intros Hc s' room'. rewrite members_join, rooms_of_join.
  specialize (Hc s' room').
  destruct (decide (room = room')) as [<- | Hr];
    destruct (decide (s = s')) as [<- | Hs]; set_solver.
Qed.

Lemma consistent_leave (s room : string) (st : server) :
  consistent st → consistent (leave s room st).
Proof.
  intros Hc s' room'. rewrite members_leave, rooms_of_leave.
  specialize (Hc s' room').
  destruct (decide (room = room')) as [<- | Hr];
    destruct (decide (s = s')) as [<- | Hs]; set_solver.
Qed.

Lemma consistent_disconnect (s : string) (st : server) :
  consistent st → consistent (disconnect s st).
Proof.
  intros Hc s' room'. rewrite members_disconnect, rooms_of_disconnect.
  specialize (Hc s' room').
  destruct (decide (s = s')) as [<- | Hs]; set_solver.
Qed.

(** The three handlers that only emit leave sockets and rooms alone. *)
Lemma log_activity_keeps_rooms (h : host) (s : string)
    (data : option activity_report) (st : server) :
  sockets (log_activity h s data st) = sockets st ∧
  rooms (log_activity h s data st) = rooms st ∧
  sids (log_activity h s data st) = sids st.
Proof.
  unfold log_activity.
  destruct (sockets st !! s); [| repeat split; reflexivity].
  destruct data as [r |]; [| repeat split; reflexivity].
  destruct (calculateCarbonFootprint h 0 (report_category r) (report_quantity r)
              (report_unit r) "US"); repeat split; reflexivity.
Qed.

Lemma update_goal_keeps_rooms (h : host) (s : string)
    (data : option goal_update) (st : server) :
  sockets (update_goal h s data st) = sockets st ∧
  rooms (update_goal h s data st) = rooms st ∧
  sids (update_goal h s data st) = sids st.
Proof.
  unfold update_goal.
  destruct (sockets st !! s); [| repeat split; reflexivity].
  destruct data; repeat split; reflexivity.
Qed.

Lemma update_challenge_progress_keeps_rooms (h : host) (s : string)
    (data : option challenge_update) (st : server) :
  sockets (update_challenge_progress h s data st) = sockets st ∧
  rooms (update_challenge_progress h s data st) = rooms st ∧
  sids (update_challenge_progress h s data st) = sids st.
Proof.
  unfold update_challenge_progress.
  destruct (sockets st !! s); [| repeat split; reflexivity].
  destruct data; repeat split; reflexivity.
Qed.

Lemma webinar_message_keeps_rooms (h : host) (s : string)
    (data : option webinar_chat) (st : server) :
  sockets (webinar_message h s data st) = sockets st ∧
  rooms (webinar_message h s data st) = rooms st ∧
  sids (webinar_message h s data st) = sids st.
Proof.
  unfold webinar_message.
  destruct (sockets st !! s); [| repeat split; reflexivity].
  destruct data; repeat split; reflexivity.
Qed.

Lemma consistent_same_rooms (st st' : server) :
  rooms st' = rooms st → sids st' = sids st → consistent st → consistent st'.
Proof.
  intros Hr Hs Hc s room. unfold members, rooms_of. rewrite Hr, Hs. apply Hc.
Qed.

Lemma step_consistent (st st' : server) :
  step st st' → consistent st → consistent st'.
Proof.
  intros Hstep Hc.
  destruct Hstep as [h s token st Hfresh | h s ev st st' Hev | name st | s st].
  - unfold connect. destruct (io_use h token) as [u | msg]; [| exact Hc].
    unfold on_connection. apply consistent_join.
    eapply consistent_same_rooms; [| | exact Hc]; reflexivity.
  - destruct ev as [data | data | data | data | data | data]; cbn [handle] in Hev.
    + injection Hev as <-.
      destruct (log_activity_keeps_rooms h s data st) as (_ & Hr & Hs).
      exact (consistent_same_rooms _ _ Hr Hs Hc).
    + injection Hev as <-.
      destruct (update_goal_keeps_rooms h s data st) as (_ & Hr & Hs).
      exact (consistent_same_rooms _ _ Hr Hs Hc).
    + injection Hev as <-.
      destruct (update_challenge_progress_keeps_rooms h s data st) as (_ & Hr & Hs).
      exact (consistent_same_rooms _ _ Hr Hs Hc).
    + injection Hev as <-.
      destruct (webinar_message_keeps_rooms h s data st) as (_ & Hr & Hs).
      exact (consistent_same_rooms _ _ Hr Hs Hc).
    + unfold join_webinar in Hev.
      destruct (sockets st !! s); [| injection Hev as <-; exact Hc].
      destruct data as [d |]; cbn [mbind option_bind] in Hev; [| discriminate Hev].
      injection Hev as <-.
      eapply consistent_same_rooms; [| | apply consistent_join; exact Hc]; reflexivity.
    + unfold leave_webinar in Hev.
      destruct (sockets st !! s); [| injection Hev as <-; exact Hc].
      destruct data as [d |]; cbn [mbind option_bind] in Hev; [| discriminate Hev].
      injection Hev as <-.
      eapply consistent_same_rooms; [| | apply consistent_leave; exact Hc]; reflexivity.
  - eapply consistent_same_rooms; [| | exact Hc]; reflexivity.
  - apply consistent_disconnect. exact Hc.
Qed.

(** In every reachable state a connection is in a room's member set exactly
    when the room is in the connection's membership set. *)
Theorem reachable_consistent (st : server) : reachable st → consistent st.
Proof.
  induction 1 as [| st st' _ IH Hstep].
  - intros s room. unfold members, rooms_of, initial; cbn [rooms sids].
    rewrite !lookup_empty. set_solver.
  - exact (step_consistent st st' Hstep IH).
Qed.

Lemma webinar_room_is_not_user_room (i : ident) (u : user) :
  webinar_room i ≠ user_room u.
Proof. unfold webinar_room, user_room. cbn [String.append]. discriminate. Qed.

Lemma in_private_rooms_same (st st' : server) :
  sockets st' = sockets st → rooms st' = rooms st →
  in_private_rooms st → in_private_rooms st'.
Proof.
  intros Hso Hr Hp s u. unfold members. rewrite Hso, Hr. apply Hp.
Qed.

Lemma step_in_private_rooms (st st' : server) :
  step st st' → in_private_rooms st → in_private_rooms st'.
Proof.
  intros Hstep Hp.
  destruct Hstep as [h s token st Hfresh | h s ev st st' Hev | name st | s st].
  - unfold connect. destruct (io_use h token) as [u | msg]; [| exact Hp].
    intros s' u' Hs'. unfold on_connection in *.
    unfold join in Hs'; cbn [sockets] in Hs'.
    rewrite members_join.
    destruct (decide (s = s')) as [<- | Hne].
    + rewrite lookup_insert_eq in Hs'. injection Hs' as <-.
      rewrite decide_True by reflexivity.
      apply elem_of_union_l, elem_of_singleton. reflexivity.
    + rewrite lookup_insert_ne in Hs' by exact Hne.
      specialize (Hp s' u' Hs').
      destruct (decide (user_room u = user_room u')) as [Heq | _]; [| exact Hp].
      rewrite <- Heq in Hp. apply elem_of_union_r. exact Hp.
  - destruct ev as [data | data | data | data | data | data]; cbn [handle] in Hev.
    + injection Hev as <-.
      destruct (log_activity_keeps_rooms h s data st) as (Hso & Hr & _).
      exact (in_private_rooms_same _ _ Hso Hr Hp).
    + injection Hev as <-.
      destruct (update_goal_keeps_rooms h s data st) as (Hso & Hr & _).
      exact (in_private_rooms_same _ _ Hso Hr Hp).
    + injection Hev as <-.
      destruct (update_challenge_progress_keeps_rooms h s data st) as (Hso & Hr & _).
      exact (in_private_rooms_same _ _ Hso Hr Hp).
    + injection Hev as <-.
      destruct (webinar_message_keeps_rooms h s data st) as (Hso & Hr & _).
      exact (in_private_rooms_same _ _ Hso Hr Hp).
    + unfold join_webinar in Hev.
      destruct (sockets st !! s); [| injection Hev as <-; exact Hp].
      destruct data as [d |]; cbn [mbind option_bind] in Hev; [| discriminate Hev].
      injection Hev as <-. intros s' u' Hs'.
      change (s' ∈ members (join s (webinar_room (ref_webinar_id d)) st) (user_room u')).
      rewrite members_join.
      rewrite (decide_False _ _ (webinar_room_is_not_user_room (ref_webinar_id d) u')).
      exact (Hp s' u' Hs').
    + unfold leave_webinar in Hev.
      destruct (sockets st !! s); [| injection Hev as <-; exact Hp].
      destruct data as [d |]; cbn [mbind option_bind] in Hev; [| discriminate Hev].
      injection Hev as <-. intros s' u' Hs'.
      change (s' ∈ members (leave s (webinar_room (ref_webinar_id d)) st) (user_room u')).
      rewrite members_leave.
      rewrite (decide_False _ _ (webinar_room_is_not_user_room (ref_webinar_id d) u')).
      exact (Hp s' u' Hs').
  - eapply in_private_rooms_same; [| | exact Hp]; reflexivity.
  - intros s' u' Hs'. unfold disconnect in Hs'; cbn [sockets] in Hs'.
    rewrite members_disconnect.
    destruct (decide (s = s')) as [<- | Hne].
    + rewrite lookup_delete_eq in Hs'. discriminate Hs'.
    + rewrite lookup_delete_ne in Hs' by exact Hne.
      specialize (Hp s' u' Hs'). set_solver.
Qed.

(** Whenever an inbound event of a connection is processed, the connection
    is already in the private room of its user: no handler can take it out
    of that room. *)
Theorem reachable_in_private_rooms (st : server) :
  reachable st → in_private_rooms st.
Proof.
  induction 1 as [| st st' _ IH Hstep].
  - intros s u Hs. unfold initial in Hs; cbn [sockets] in Hs.
    rewrite lookup_empty in Hs. discriminate Hs.
  - exact (step_in_private_rooms st st' Hstep IH).
Qed.

(** * Further properties of the realtime layer *)

Lemma three_sockets_reachable : reachable three_sockets.
Proof.
  unfold three_sockets.
  refine (reachable_step _ _ (reachable_step _ _ (reachable_step _ _
            reachable_initial
            (step_connect sample_host "s1" (Some "alice-token") initial _))
            (step_connect sample_host "s2" (Some "alice-token") _ _))
            (step_connect sample_host "s3" (Some "bob-token") _ _));
    vm_compute; reflexivity.
Qed.

(** X1. In every state the server can reach, every connected socket is a
    member of the private room of its user: no sequence of inbound events,
    connections and disconnections takes it out. *)
Theorem private_room_membership_is_invariant (st : server) (s : string) (u : user) :
  reachable st → sockets st !! s = Some u → s ∈ members st (user_room u).
Proof. intros Hr. exact (reachable_in_private_rooms st Hr s u). Qed.

Lemma private_room_membership_sample : "s2" ∈ members three_sockets (user_room alice).
Proof.
  exact (private_room_membership_is_invariant three_sockets "s2" alice
           three_sockets_reachable ltac:(vm_compute; reflexivity)).
Defined.

Lemma user_room_inj (u u' : user) : user_room u = user_room u' → uid u = uid u'.
Proof. unfold user_room. cbn [String.append]. intros [= H]. exact H. Qed.

Lemma members_are_connected_same (st st' : server) :
  sockets st' = sockets st → rooms st' = rooms st →
  members_are_connected st → members_are_connected st'.
Proof.
  intros Hso Hr Hm s room. unfold members. rewrite Hso, Hr. apply Hm.
Qed.

Lemma step_members_are_connected (st st' : server) :
  step st st' → members_are_connected st → members_are_connected st'.
Proof.
  intros Hstep Hm.
  destruct Hstep as [h s token st Hfresh | h s ev st st' Hev | name st | s st].
  - unfold connect. destruct (io_use h token) as [u | msg]; [| exact Hm].
    intros s' room. unfold on_connection. rewrite members_join.
    unfold join; cbn [sockets].
    destruct (decide (user_room u = room)) as [<- | Hroom].
    + intros [Hin | Hin]%elem_of_union.
      * apply elem_of_singleton in Hin as ->. exists u.
        rewrite lookup_insert_eq. split; [reflexivity | left; reflexivity].
      * destruct (Hm s' (user_room u) Hin) as (u' & Hs' & Hroom').
        assert (s ≠ s') as Hne by (intros <-; congruence).
        exists u'. rewrite lookup_insert_ne by exact Hne. split; assumption.
    + intros Hin. destruct (Hm s' room Hin) as (u' & Hs' & Hroom').
      assert (s ≠ s') as Hne by (intros <-; congruence).
      exists u'. rewrite lookup_insert_ne by exact Hne. split; assumption.
  - destruct ev as [data | data | data | data | data | data]; cbn [handle] in Hev.
    + injection Hev as <-.
      destruct (log_activity_keeps_rooms h s data st) as (Hso & Hr & _).
      exact (members_are_connected_same _ _ Hso Hr Hm).
    + injection Hev as <-.
      destruct (update_goal_keeps_rooms h s data st) as (Hso & Hr & _).
      exact (members_are_connected_same _ _ Hso Hr Hm).
    + injection Hev as <-.
      destruct (update_challenge_progress_keeps_rooms h s data st) as (Hso & Hr & _).
      exact (members_are_connected_same _ _ Hso Hr Hm).
    + injection Hev as <-.
      destruct (webinar_message_keeps_rooms h s data st) as (Hso & Hr & _).
      exact (members_are_connected_same _ _ Hso Hr Hm).
    + unfold join_webinar in Hev.
      destruct (sockets st !! s) as [u |] eqn:Hs; [| injection Hev as <-; exact Hm].
      destruct data as [d |]; cbn [mbind option_bind] in Hev; [| discriminate Hev].
      injection Hev as <-. intros s' room.
      change (s' ∈ members (join s (webinar_room (ref_webinar_id d)) st) room →
              ∃ u', sockets st !! s' = Some u' ∧
                    (room = user_room u' ∨ ∃ i, room = webinar_room i)).
      rewrite members_join.
      destruct (decide (webinar_room (ref_webinar_id d) = room)) as [<- | Hroom];
        [| apply Hm].
      intros [Hin | Hin]%elem_of_union.
      * apply elem_of_singleton in Hin as ->. exists u.
        split; [exact Hs | right; eexists; reflexivity].
      * exact (Hm s' _ Hin).
    + unfold leave_webinar in Hev.
      destruct (sockets st !! s) as [u |] eqn:Hs; [| injection Hev as <-; exact Hm].
      destruct data as [d |]; cbn [mbind option_bind] in Hev; [| discriminate Hev].
      injection Hev as <-. intros s' room.
      change (s' ∈ members (leave s (webinar_room (ref_webinar_id d)) st) room →
              ∃ u', sockets st !! s' = Some u' ∧
                    (room = user_room u' ∨ ∃ i, room = webinar_room i)).
      rewrite members_leave.
      destruct (decide (webinar_room (ref_webinar_id d) = room)) as [<- | Hroom];
        [| apply Hm].
      intros [Hin _]%elem_of_difference. exact (Hm s' _ Hin).
  - eapply members_are_connected_same; [| | exact Hm]; reflexivity.
  - intros s' room. rewrite members_disconnect.
    intros [Hin Hne]%elem_of_difference.
    destruct (Hm s' room Hin) as (u' & Hs' & Hroom').
    exists u'. unfold disconnect; cbn [sockets].
    rewrite lookup_delete_ne by (intros ->; apply Hne, elem_of_singleton; reflexivity).
    split; assumption.
Qed.

Lemma reachable_members_are_connected (st : server) :
  reachable st → members_are_connected st.
Proof.
  induction 1 as [| st st' _ IH Hstep].
  - intros s room. unfold members, initial; cbn [rooms].
    rewrite lookup_empty. cbn [default from_option id]. intros Hin.
    exfalso. exact (not_elem_of_empty (C := gset string) s Hin).
  - exact (step_members_are_connected st st' Hstep IH).
Qed.

(** X2. In every reachable state the goal.updated event of [update_goal]
    reaches every connection of the sending user (all of that user's
    devices, the sender included) and no connection of any other user. *)
Theorem update_goal_reaches_exactly_own_user (h : host) (st : server)
    (s : string) (u : user) (g : goal_update) :
  reachable st →
  sockets st !! s = Some u →
  let st' := update_goal h s (Some g) st in
  let e := GoalUpdated
             {| goal_user_id := uid u;
                goal_category := update_category g;
                goal_target := update_target g;
                goal_timeframe := update_timeframe g;
                updated_at := clock h 0 |} in
  (∀ t u', sockets st !! t = Some u' → uid u' = uid u →
           received st' t = received st t ++ [e]) ∧
  (∀ t, (∀ u', sockets st !! t = Some u' → uid u' ≠ uid u) →
        received st' t = received st t).
Proof.
  intros Hr Hs st' e. subst st' e. unfold update_goal. rewrite Hs.
  split.
  - intros t u' Ht Hid. rewrite received_io_to_emit.
    assert (t ∈ members st (user_room u)) as Hin.
    { replace (user_room u) with (user_room u')
        by (unfold user_room; rewrite Hid; reflexivity).
      exact (reachable_in_private_rooms st Hr t u' Ht). }
    rewrite (decide_True _ _ Hin). reflexivity.
  - intros t Hother. rewrite received_io_to_emit.
    destruct (decide (t ∈ members st (user_room u))) as [Hin | Hout];
      [| rewrite app_nil_r; reflexivity].
    exfalso.
    destruct (reachable_members_are_connected st Hr t _ Hin) as (u' & Ht & [Hroom | [i Hroom]]).
    + exact (Hother u' Ht (eq_sym (user_room_inj u u' Hroom))).
    + exact (webinar_room_is_not_user_room i u (eq_sym Hroom)).
Qed.

Lemma update_goal_reaches_exactly_own_user_sample :
  received (update_goal sample_host "s1" (Some energy_goal) three_sockets) "s2" =
  received three_sockets "s2" ++
  [GoalUpdated
     {| goal_user_id := "u1";
        goal_category := Some "energy";
        goal_target := Some 100%float;
        goal_timeframe := Some "1 month";
        updated_at := 1000 |}].
Proof.
  exact (proj1 (update_goal_reaches_exactly_own_user sample_host three_sockets
                  "s1" alice energy_goal three_sockets_reachable
                  ltac:(vm_compute; reflexivity))
           "s2" alice ltac:(vm_compute; reflexivity) eq_refl).
Defined.

(** X3. A connection that joins a webinar and then leaves it is no longer a
    member of the webinar room, and a message sent to that webinar
    afterwards, by any connection, does not reach it. *)
Theorem leave_webinar_stops_messages (h : host) (st : server) (s sender : string)
    (u : user) (d : webinar_ref) (text : option string) :
  sockets st !! s = Some u →
  ∃ st1 st2,
    join_webinar s (Some d) st = Some st1 ∧
    leave_webinar s (Some d) st1 = Some st2 ∧
    s ∈ members st1 (webinar_room (ref_webinar_id d)) ∧
    (s ∉ members st2 (webinar_room (ref_webinar_id d))) ∧
    received (webinar_message h sender
                (Some {| chat_webinar_id := ref_webinar_id d;
                         chat_message_text := text |}) st2) s =
    received st2 s.
Proof.
  intros Hs. unfold join_webinar, leave_webinar. rewrite Hs.
  cbn [mbind option_bind].
  eexists _, _. split; [reflexivity |].
  unfold socket_emit at 1, emit_to at 1, join at 1; cbn [sockets]. rewrite Hs.
  split; [reflexivity |].
  assert (s ∉ members
            (socket_emit s (WebinarLeft (ref_webinar_id d) "Left webinar")
               (leave s (webinar_room (ref_webinar_id d))
                  (socket_emit s
                     (WebinarJoined (ref_webinar_id d) "Successfully joined webinar")
                     (join s (webinar_room (ref_webinar_id d)) st))))
            (webinar_room (ref_webinar_id d))) as Hout.
  { change (s ∉ members (leave s (webinar_room (ref_webinar_id d))
                           (socket_emit s
                              (WebinarJoined (ref_webinar_id d) "Successfully joined webinar")
                              (join s (webinar_room (ref_webinar_id d)) st)))
                  (webinar_room (ref_webinar_id d))).
    rewrite members_leave, decide_True by reflexivity.
    intros [_ Hne]%elem_of_difference. apply Hne, elem_of_singleton. reflexivity. }
  split; [| split; [exact Hout |]].
  - change (s ∈ members (join s (webinar_room (ref_webinar_id d)) st)
                  (webinar_room (ref_webinar_id d))).
    apply elem_of_members_join.
  - unfold webinar_message.
    match goal with
    | |- context [sockets ?x !! sender] => destruct (sockets x !! sender)
    end; [| reflexivity].
    cbn [chat_webinar_id chat_message_text].
    rewrite received_io_to_emit, (decide_False _ _ Hout), app_nil_r. reflexivity.
Qed.

Lemma leave_webinar_stops_messages_sample :
  ∃ st1 st2,
    join_webinar "s1" (Some webinar_42) three_sockets = Some st1 ∧
    leave_webinar "s1" (Some webinar_42) st1 = Some st2 ∧
    "s1" ∈ members st1 (webinar_room (IdNum 42)) ∧
    ("s1" ∉ members st2 (webinar_room (IdNum 42))) ∧
    received (webinar_message sample_host "s3"
                (Some {| chat_webinar_id := IdNum 42;
                         chat_message_text := Some "hi" |}) st2) "s1" =
    received st2 "s1".
Proof.
  exact (leave_webinar_stops_messages sample_host three_sockets "s1" "s3" alice
           webinar_42 (Some "hi") ltac:(vm_compute; reflexivity)).
Defined.

(** X4. [webinar_message] does not check that the sender has joined the
    webinar: a connected socket outside the room can post to it; every
    member receives the message with the sender's identity and the sender
    itself does not. *)
Theorem webinar_message_from_outside_the_room (h : host) (st : server)
    (A B : string) (uA : user) (c : webinar_chat) :
  sockets st !! A = Some uA →
  A ∉ members st (webinar_room (chat_webinar_id c)) →
  B ∈ members st (webinar_room (chat_webinar_id c)) →
  received (webinar_message h A (Some c) st) B =
    received st B ++
    [NewWebinarMessage
       {| webinar_id := chat_webinar_id c;
          message_text := chat_message_text c;
          sender_id := uid uA;
          sender_username := username uA;
          sent_at := clock h 0 |}] ∧
  received (webinar_message h A (Some c) st) A = received st A.
Proof.
  intros HA Hout Hin. unfold webinar_message. rewrite HA.
  rewrite !received_io_to_emit.
  rewrite (decide_True _ _ Hin), (decide_False _ _ Hout), app_nil_r.
  split; reflexivity.
Qed.

Lemma webinar_message_from_outside_the_room_sample :
  received (webinar_message sample_host "s2" (Some hi_chat) in_webinar) "s3" =
    received in_webinar "s3" ++
    [NewWebinarMessage
       {| webinar_id := IdNum 42;
          message_text := Some "hi";
          sender_id := "u1";
          sender_username := "alice";
          sent_at := 1000 |}] ∧
  received (webinar_message sample_host "s2" (Some hi_chat) in_webinar) "s2" =
    received in_webinar "s2".
Proof.
  exact (webinar_message_from_outside_the_room sample_host in_webinar "s2" "s3"
           alice hi_chat
           ltac:(vm_compute; reflexivity)
           ltac:(refine (bool_decide_unpack _ _); vm_compute; exact I)
           ltac:(refine (bool_decide_unpack _ _); vm_compute; exact I)).
Defined.



(** X6. An inbound event whose payload cannot be destructured: the four
    handlers with a [try] answer the originating connection alone with one
    error event, each with its own message, and touch nothing else;
    [join_webinar] and [leave_webinar] have no [try] and the exception
    escapes the handler. *)
Theorem unreadable_payload_outcome (h : host) (s : string) (u : user) (st : server) :
  sockets st !! s = Some u →
  handle h s (LogActivity None) st =
    Some (socket_emit s (ErrorEvent "Failed to log activity") st) ∧
  handle h s (UpdateGoal None) st =
    Some (socket_emit s (ErrorEvent "Failed to update goal") st) ∧
  handle h s (UpdateChallengeProgress None) st =
    Some (socket_emit s (ErrorEvent "Failed to update challenge progress") st) ∧
  handle h s (WebinarMessage None) st =
    Some (socket_emit s (ErrorEvent "Failed to send message") st) ∧
  handle h s (JoinWebinar None) st = None ∧
  handle h s (LeaveWebinar None) st = None ∧
  ∀ p t, t ≠ s → received (socket_emit s p st) t = received st t.
Proof.
  intros Hs. cbn [handle].
  unfold log_activity, update_goal, update_challenge_progress, webinar_message,
    join_webinar, leave_webinar.
  rewrite Hs. repeat (split; [reflexivity |]).
  intros p t Hne. rewrite received_socket_emit, (decide_False _ _ Hne), app_nil_r.
  reflexivity.
Qed.

Lemma unreadable_payload_outcome_sample :
  handle sample_host "s1" (JoinWebinar None) three_sockets = None ∧
  received (socket_emit "s1" (ErrorEvent "Failed to update goal") three_sockets) "s2" =
  received three_sockets "s2".
Proof.
  destruct (unreadable_payload_outcome sample_host "s1" alice three_sockets
              ltac:(vm_compute; reflexivity))
    as (_ & _ & _ & _ & Hjoin & _ & Hothers).
  split; [exact Hjoin | exact (Hothers _ "s2" ltac:(discriminate))].
Defined.

(** ** Numbers at the edges *)

Lemma mul_nan_l (x : float) : PrimFloat.mul nan x = nan.
Proof.
  apply FloatAxioms.Prim2SF_inj. rewrite FloatAxioms.mul_spec. reflexivity.
Qed.

Lemma ltb_leb (x y : float) : PrimFloat.ltb x y = true → PrimFloat.leb x y = true.
Proof.
  rewrite FloatAxioms.ltb_spec, FloatAxioms.leb_spec.
  unfold SpecFloat.SFltb, SpecFloat.SFleb.
  destruct (SpecFloat.SFcompare (FloatOps.Prim2SF x) (FloatOps.Prim2SF y)) as [[| |] |];
    intros H; try discriminate H; reflexivity.
Qed.

Lemma min_100_bound (x : float) :
  is_nan (min_100 x) = true ∨ PrimFloat.leb (min_100 x) 100 = true.
Proof.
  unfold min_100. destruct (is_nan x) eqn:Hnan; [left; exact Hnan |].
  right. destruct (PrimFloat.ltb x 100) eqn:Hlt.
  - apply ltb_leb. exact Hlt.
  - reflexivity.
Qed.

(** X7. The challenge.progress event of [update_challenge_progress] is sent
    to every connection, carries the sender's user id and the challenge id
    of the payload, and its progress never exceeds 100, whatever the random
    draw. *)
Theorem challenge_progress_is_at_most_100 (h : host) (s : string) (u : user)
    (c : challenge_update) (st : server) :
  sockets st !! s = Some u →
  ∃ e,
    log (update_challenge_progress h s (Some c) st) =
      log st ++ [(dom (sockets st), ChallengeProgress e)] ∧
    progress_user_id e = uid u ∧
    challenge_id e = update_challenge_id c ∧
    (is_nan (progress e) = true ∨ PrimFloat.leb (progress e) 100 = true).
Proof.
  intros Hs. unfold update_challenge_progress. rewrite Hs.
  eexists. split; [reflexivity |]. cbn [progress_user_id challenge_id progress].
  split; [reflexivity |]. split; [reflexivity |]. apply min_100_bound.
Qed.

Lemma challenge_progress_sample :
  ∃ e,
    log (update_challenge_progress sample_host "s1"
           (Some {| update_challenge_id := IdStr "plastic-free" |}) three_sockets) =
      log three_sockets ++ [(dom (sockets three_sockets), ChallengeProgress e)] ∧
    progress_user_id e = "u1" ∧
    challenge_id e = IdStr "plastic-free" ∧
    (is_nan (progress e) = true ∨ PrimFloat.leb (progress e) 100 = true).
Proof.
  exact (challenge_progress_is_at_most_100 sample_host "s1" alice
           {| update_challenge_id := IdStr "plastic-free" |} three_sockets
           ltac:(vm_compute; reflexivity)).
Defined.

(** X8. A report without a quantity is not rejected: whenever the factor
    lookup completes, whatever the category and the unit, the event is
    published to every connection with impact NaN. *)
Theorem missing_quantity_is_published_as_nan (h : host) (s : string) (u : user)
    (r : activity_report) (st : server) (v : value) :
  sockets st !! s = Some u →
  report_quantity r = None →
  lookup_factor h (property_key (report_category r))
    (property_key (report_unit r)) = Some v →
  published s
    {| user_id := uid u;
       category := report_category r;
       impact := nan;
       timestamp := clock h 1;
       description := report_description r |}
    (generatePersonalizedRecommendations h 2 (uid u) (report_category r))
    st (log_activity h s (Some r) st).
Proof.
  intros Hs Hq Hl. unfold published, log_activity, calculateCarbonFootprint.
  rewrite Hs, Hl, Hq. cbn [mbind option_bind co2_equivalent_kg].
  unfold js_mul. cbn [number_field to_number]. rewrite mul_nan_l.
  unfold socket_emit, io_emit, emit_to; cbn [log sockets].
  rewrite <- app_assoc. reflexivity.
Qed.

Lemma missing_quantity_sample :
  published "s1"
    {| user_id := "u1";
       category := Some "energy";
       impact := nan;
       timestamp := 1001;
       description := None |}
    (generatePersonalizedRecommendations sample_host 2 "u1" (Some "energy"))
    three_sockets (log_activity sample_host "s1" (Some no_quantity_report) three_sockets).
Proof.
  exact (missing_quantity_is_published_as_nan sample_host "s1" alice
           no_quantity_report three_sockets (VNum 2%float)
           ltac:(vm_compute; reflexivity) eq_refl ltac:(vm_compute; reflexivity)).
Defined.

Lemma default_factor_sample :
  published "s1"
    {| user_id := "u1";
       category := Some "shopping";
       impact := 3%float;
       timestamp := 1001;
       description := None |}
    (generatePersonalizedRecommendations sample_host 2 "u1" (Some "shopping"))
    three_sockets (log_activity sample_host "s1" (Some unknown_pair_report) three_sockets).
Proof.
  exact (log_activity_default_factor sample_host "s1" alice unknown_pair_report
           three_sockets ltac:(vm_compute; reflexivity) ltac:(vm_compute; reflexivity)
           ltac:(vm_compute; reflexivity) ltac:(vm_compute; reflexivity)).
Defined.

(** * Properties of the REST routes *)

(** ** authenticateToken *)

Lemma split_space_no_space (t : string) :
  has_space t = false → split_space t = [t].
Proof.
  induction t as [| c t IH]; cbn [has_space split_space]; [reflexivity |].
  destruct (Ascii.eqb c _); cbn [orb]; [discriminate |].
  intros Ht. rewrite (IH Ht). reflexivity.
Qed.

Lemma split_space_app (scheme t : string) :
  has_space scheme = false →
  split_space (scheme +:+ " " +:+ t) = scheme :: split_space t.
Proof.
  change (" " +:+ t)
    with (String (Ascii.Ascii false false false false false true false false) t).
  induction scheme as [| c scheme IH].
  - intros _. reflexivity.
  - match goal with
    | |- context [String c scheme +:+ ?x] =>
        change (String c scheme +:+ x) with (String c (scheme +:+ x))
    end.
    cbn [has_space split_space].
    destruct (Ascii.eqb c _); cbn [orb]; [discriminate |].
    intros Hs. rewrite (IH Hs). reflexivity.
Qed.

Lemma header_token_scheme (scheme t : string) :
  has_space scheme = false → has_space t = false →
  header_token (Some (scheme +:+ " " +:+ t)) = Some t.
Proof.
  intros Hs Ht. unfold header_token.
  destruct (scheme +:+ " " +:+ t) as [| c rest] eqn:Hhd.
  - destruct scheme; discriminate Hhd.
  - cbv beta iota.
    rewrite <- Hhd, (split_space_app scheme t Hs), (split_space_no_space t Ht).
    reflexivity.
Qed.

Lemma authenticateToken_io_use (h : host) (e : rest_env)
    (authHeader : option string) (u : user) :
  authenticateToken h e authHeader = Next u ↔
  io_use h (header_token authHeader) = Accepted u.
Proof.
  unfold authenticateToken, io_use.
  destruct (header_token authHeader) as [[| c t] |]; [split; discriminate | | split; discriminate].
  destruct (jwt_verify h (String c t)) as [d |]; [| split; discriminate].
  destruct (select_user h (decoded_user_id d)) as [[| r rows] |];
    try (split; discriminate).
  split; intros [= ->]; reflexivity.
Qed.

(** X9. The REST middleware and the socket middleware accept the same
    tokens and bind the same user: a header made of any one-word scheme, a
    space and a token passes [authenticateToken] exactly when the token
    passes [io.use].  The scheme is never compared with "Bearer". *)
Theorem authenticateToken_accepts_what_io_use_accepts (h : host) (e : rest_env)
    (scheme t : string) (u : user) :
  has_space scheme = false →
  has_space t = false →
  authenticateToken h e (Some (scheme +:+ " " +:+ t)) = Next u ↔
  io_use h (Some t) = Accepted u.
Proof.
  intros Hs Ht.
  rewrite authenticateToken_io_use, (header_token_scheme scheme t Hs Ht).
  reflexivity.
Qed.

Lemma authenticateToken_sample :
  authenticateToken sample_host sample_rest (Some "Token alice-token") = Next alice.
Proof.
  apply (authenticateToken_accepts_what_io_use_accepts sample_host sample_rest
           "Token" "alice-token" alice eq_refl eq_refl).
  vm_compute. reflexivity.
Defined.

(** X10. A header that is absent, empty, or a single word - a bare token
    without a scheme - is answered 401 "Access token required": the token
    is never verified. *)
Theorem authenticateToken_needs_two_words (h : host) (e : rest_env)
    (authHeader : option string) :
  (∀ hd, authHeader = Some hd → has_space hd = false) →
  authenticateToken h e authHeader =
  Denied 401
    {| success := false;
       error_text := "Access token required";
       error_code := Some "AUTH_TOKEN_REQUIRED";
       details := None;
       error_timestamp := clock h 0 |}.
Proof.
  intros Hone. unfold authenticateToken, header_token.
  destruct authHeader as [[| c hd] |]; try reflexivity.
  rewrite (split_space_no_space (String c hd) (Hone _ eq_refl)). reflexivity.
Qed.

Lemma authenticateToken_bare_token_sample :
  authenticateToken sample_host sample_rest (Some "alice-token") =
  Denied 401
    {| success := false;
       error_text := "Access token required";
       error_code := Some "AUTH_TOKEN_REQUIRED";
       details := None;
       error_timestamp := 1000 |}.
Proof.
  apply (authenticateToken_needs_two_words sample_host sample_rest (Some "alice-token")).
  intros hd [= <-]. reflexivity.
Defined.

(** Every refusal of the middleware is a 401 or a 403 with [success: false]. *)
Lemma authenticateToken_denied (h : host) (e : rest_env)
    (authHeader : option string) (status : nat) (body : ErrorResponse) :
  authenticateToken h e authHeader = Denied status body →
  (status = 401 ∨ status = 403) ∧ success body = false.
Proof.
  unfold authenticateToken.
  destruct (header_token authHeader) as [[| c t] |];
    try (intros [= <- <-]; split; [left |]; reflexivity).
  destruct (jwt_verify h (String c t)) as [d |];
    [| intros [= <- <-]; split; [right |]; reflexivity].
  destruct (select_user h (decoded_user_id d)) as [[| r rows] |].
  - intros [= <- <-]; split; [left |]; reflexivity.
  - discriminate.
  - intros [= <- <-]; split; [right |]; reflexivity.
Qed.

(** ** POST /api/carbon-offset *)

Lemma SFcompare_refl_finite (s : bool) (m : positive) (e : Z) :
  SpecFloat.SFcompare (SpecFloat.S754_finite s m e) (SpecFloat.S754_finite s m e) = Some Eq.
Proof.
  cbn [SpecFloat.SFcompare].
  rewrite Z.compare_refl, Pos.compare_cont_refl. destruct s; reflexivity.
Qed.

(** [!amount || amount <= 0] holds exactly when [0 < amount] fails. *)
Lemma invalid_amount_spec (a : float) :
  invalid_amount (Some a) = negb (PrimFloat.ltb 0 a).
Proof.
  unfold invalid_amount, to_boolean, is_nan. rewrite negb_involutive.
  rewrite !FloatAxioms.eqb_spec, FloatAxioms.leb_spec, FloatAxioms.ltb_spec.
  change (FloatOps.Prim2SF 0) with (SpecFloat.S754_zero false).
  unfold SpecFloat.SFeqb, SpecFloat.SFleb, SpecFloat.SFltb.
  destruct (FloatOps.Prim2SF a) as [s | s | | s m e].
  - reflexivity.
  - destruct s; reflexivity.
  - reflexivity.
  - rewrite SFcompare_refl_finite. destruct s; reflexivity.
Qed.

(** X11. For an authenticated request the purchase goes through exactly
    when the amount is a number greater than 0, and then costs 15.50 per
    ton; an absent, zero, negative or NaN amount is answered 400
    INVALID_AMOUNT and no transaction is made. *)
Theorem carbon_offset_needs_positive_amount (h : host) (e : rest_env)
    (authHeader : option string) (amount : option float) (u : user) :
  authenticateToken h e authHeader = Next u →
  (∀ a, amount = Some a → PrimFloat.ltb 0 a = true →
     post_carbon_offset h e authHeader amount =
     Json 200
       {| receipt_message := "Carbon offset purchase completed";
          transaction := processCarbonOffsetPayment h (uid u) a "mock_payment" |} ∧
     cost_usd (processCarbonOffsetPayment h (uid u) a "mock_payment") =
     PrimFloat.mul a 15.5 ∧
     payer_id (processCarbonOffsetPayment h (uid u) a "mock_payment") = uid u) ∧
  (amount = None ∨ (∃ a, amount = Some a ∧ PrimFloat.ltb 0 a = false) →
     post_carbon_offset h e authHeader amount =
     Failure 400
       {| success := false;
          error_text := "Valid amount is required";
          error_code := Some "INVALID_AMOUNT";
          details := None;
          error_timestamp := clock h 0 |}).
Proof.
  intros Hauth. unfold post_carbon_offset. rewrite Hauth. split.
  - intros a -> Hpos. rewrite invalid_amount_spec, Hpos.
    repeat split; reflexivity.
  - intros [-> | (a & -> & Hneg)]; [reflexivity |].
    rewrite invalid_amount_spec, Hneg. reflexivity.
Qed.

Lemma carbon_offset_sample :
  post_carbon_offset sample_host sample_rest (Some "Bearer alice-token") (Some 2%float) =
  Json 200
    {| receipt_message := "Carbon offset purchase completed";
       transaction := processCarbonOffsetPayment sample_host "u1" 2%float "mock_payment" |} ∧
  cost_usd (processCarbonOffsetPayment sample_host "u1" 2%float "mock_payment") = 31%float.
Proof.
  destruct (proj1 (carbon_offset_needs_positive_amount sample_host sample_rest
                     (Some "Bearer alice-token") (Some 2%float) alice
                     ltac:(vm_compute; reflexivity))
              2%float eq_refl eq_refl) as (Hreply & Hcost & _).
  split; [exact Hreply | etransitivity; [exact Hcost | reflexivity]].
Defined.

(** ** DELETE /api/posts/:post_id *)

(** X12. A post is deleted only by its owner: the DELETE statement is sent,
    the post.deleted event is broadcast, or the answer is 204 only when the
    request is authenticated and the post row that the SELECT returned
    belongs to the authenticated user.  In every other case the socket
    server is left as it was. *)
Theorem delete_post_only_by_owner (h : host) (e : rest_env)
    (authHeader : option string) (post_id : string) (st : server) :
  let o := delete_post h e authHeader post_id st in
  ((delete_post_sql, [post_id]) ∈ statements o ∨
   answer o = NoContent 204 ∨
   log (server_after o) ≠ log st) →
  ∃ u existing others,
    authenticateToken h e authHeader = Next u ∧
    pool_query e select_post_sql [post_id] = Some (existing :: others) ∧
    get_own existing "user_id" = Some (Some (uid u)).
Proof.
  intros o. subst o. unfold delete_post.
  destruct (authenticateToken h e authHeader) as [u | status body]; cbn zeta.
  - destruct (pool_query e select_post_sql [post_id]) as [[| existing others] |] eqn:Hsel.
    + cbn [statements answer server_after].
      intros [Hin | [Hans | Hlog]]; [| discriminate Hans | contradiction].
      apply list_elem_of_singleton in Hin. discriminate Hin.
    + destruct (column_is existing "user_id" (uid u)) eqn:Hown.
      * intros _. exists u, existing, others.
        split; [reflexivity |]. split; [reflexivity |].
        unfold column_is in Hown.
        destruct (get_own existing "user_id") as [[x |] |]; try discriminate Hown.
        apply String.eqb_eq in Hown. subst x. reflexivity.
      * cbn [statements answer server_after].
        intros [Hin | [Hans | Hlog]]; [| discriminate Hans | contradiction].
        apply list_elem_of_singleton in Hin. discriminate Hin.
    + cbn [statements answer server_after].
      intros [Hin | [Hans | Hlog]]; [| discriminate Hans | contradiction].
      apply list_elem_of_singleton in Hin. discriminate Hin.
  - cbn [statements answer server_after].
    intros [Hin | [Hans | Hlog]]; [| discriminate Hans | contradiction].
    apply elem_of_nil in Hin. contradiction.
Qed.

Lemma delete_post_sample :
  ∃ u existing others,
    authenticateToken sample_host sample_rest (Some "Bearer alice-token") = Next u ∧
    pool_query sample_rest select_post_sql ["post1"] = Some (existing :: others) ∧
    get_own existing "user_id" = Some (Some (uid u)).
Proof.
  apply (delete_post_only_by_owner sample_host sample_rest
           (Some "Bearer alice-token") "post1" three_sockets).
  right. left. vm_compute. reflexivity.
Defined.

(** Bob is authenticated but does not own post1: 403, and nothing else. *)
Lemma delete_post_by_another_user :
  answer (delete_post sample_host sample_rest (Some "Bearer bob-token") "post1"
            three_sockets) =
  Failure 403
    {| success := false;
       error_text := "Unauthorized";
       error_code := Some "UNAUTHORIZED";
       details := None;
       error_timestamp := 1000 |} ∧
  statements (delete_post sample_host sample_rest (Some "Bearer bob-token") "post1"
                three_sockets) = [(select_post_sql, ["post1"])] ∧
  server_after (delete_post sample_host sample_rest (Some "Bearer bob-token") "post1"
                  three_sockets) = three_sockets.
Proof. repeat split; vm_compute; reflexivity. Qed.

(** ** userEntitySchema, GET /api/users/:user_id and POST /api/auth/login *)

(** What a successful parse says about the row. *)
Lemma userEntitySchema_Some (e : rest_env) (r : row) (entity : user_entity) :
  userEntitySchema e r = Some entity →
  get_own r "password_hash" = Some (Some (entity_password_hash entity)) ∧
  8 ≤ String.length (entity_password_hash entity) ∧
  get_own r "id" = Some (Some (entity_id entity)) ∧
  get_own r "email" = Some (Some (entity_email entity)) ∧
  is_email e (entity_email entity) = true.
Proof.
  unfold userEntitySchema, z_string, z_min, z_max, z_check. intros H.
  destruct (get_own r "id") as [[id |] |]; cbn [mbind option_bind] in H;
    try discriminate H.
  destruct (get_own r "username") as [[name |] |]; cbn [mbind option_bind] in H;
    try discriminate H.
  destruct (Nat.leb 1 (String.length name)); cbn [mbind option_bind] in H;
    try discriminate H.
  destruct (Nat.leb (String.length name) 50); cbn [mbind option_bind] in H;
    try discriminate H.
  destruct (get_own r "email") as [[mail |] |]; cbn [mbind option_bind] in H;
    try discriminate H.
  destruct (Nat.leb 1 (String.length mail)); cbn [mbind option_bind] in H;
    try discriminate H.
  destruct (Nat.leb (String.length mail) 100); cbn [mbind option_bind] in H;
    try discriminate H.
  destruct (is_email e mail) eqn:Hmail; cbn [mbind option_bind] in H;
    try discriminate H.
  destruct (get_own r "password_hash") as [[pw |] |]; cbn [mbind option_bind] in H;
    try discriminate H.
  destruct (Nat.leb 8 (String.length pw)) eqn:Hlen; cbn [mbind option_bind] in H;
    try discriminate H.
  destruct (coerce_date e (get_own r "created_at")); cbn [mbind option_bind] in H;
    try discriminate H.
  injection H as <-. cbn [entity_password_hash entity_id entity_email].
  apply Nat.leb_le in Hlen. repeat split; try reflexivity; assumption.
Qed.

(** X13. The profile route selects the columns id, username, email and
    created_at and then parses the row with a schema that requires
    password_hash: whenever the rows carry no password_hash column the
    route never answers 200; it answers 404 when there is no row and 500
    "Failed to get user" when the user exists or the query fails. *)
Theorem get_user_never_succeeds (h : host) (e : rest_env) (user_id : string) :
  (∀ rows r, pool_query e select_user_sql [user_id] = Some rows →
             r ∈ rows → get_own r "password_hash" = None) →
  get_user h e user_id =
  match pool_query e select_user_sql [user_id] with
  | Some [] =>
      Failure 404
        {| success := false;
           error_text := "User not found";
           error_code := Some "USER_NOT_FOUND";
           details := None;
           error_timestamp := clock h 0 |}
  | _ =>
      Failure 500
        {| success := false;
           error_text := "Failed to get user";
           error_code := Some "GET_USER_ERROR";
           details := Some (thrown e);
           error_timestamp := clock h 0 |}
  end.
Proof.
  intros Hcols. unfold get_user.
  destruct (pool_query e select_user_sql [user_id]) as [[| r rows] |] eqn:Hq;
    try reflexivity.
  destruct (userEntitySchema e r) as [entity |] eqn:Hparse; [| reflexivity].
  apply userEntitySchema_Some in Hparse as (Hpw & _).
  rewrite (Hcols (r :: rows) r eq_refl (list_elem_of_here r rows)) in Hpw.
  discriminate Hpw.
Qed.

Lemma get_user_sample :
  get_user sample_host sample_rest "u1" =
  Failure 500
    {| success := false;
       error_text := "Failed to get user";
       error_code := Some "GET_USER_ERROR";
       details := Some (thrown sample_rest);
       error_timestamp := 1000 |}.
Proof.
  apply (get_user_never_succeeds sample_host sample_rest "u1").
  intros rows r [= <-] Hin. apply list_elem_of_singleton in Hin as ->. reflexivity.
Defined.



(** ** GET /api/marketplace *)

Lemma In_filter_if (param : option string) (keep : product → bool)
    (l : list product) (p : product) :
  In p (filter_if param keep l) ↔
  In p l ∧ (string_truthy param = true → keep p = true).
Proof.
  unfold filter_if. destruct (string_truthy param).
  - rewrite List.filter_In. split; intros [Hin Hk]; split; auto.
  - split; [intros Hin; split; [exact Hin | discriminate] | intros [Hin _]; exact Hin].
Qed.

Lemma strict_eq_Some (a : string) (b : option string) :
  strict_eq a b = true ↔ Some a = b.
Proof.
  unfold strict_eq. destruct b as [s |].
  - rewrite String.eqb_eq. split; [intros -> | intros [= ->]]; reflexivity.
  - split; discriminate.
Qed.

(** X15. The marketplace answers 200 with exactly the products of the
    static list that pass every filter present in the query: nothing
    outside a requested category or bound is returned, and nothing inside
    is left out. *)
Theorem marketplace_returns_exactly_the_matches (h : host) (e : rest_env)
    (q : marketplace_query) :
  ∃ l, get_marketplace h e q = Json 200 l ∧
       ∀ p, In p l ↔ In p (mockProducts h) ∧ passes e q p.
Proof.
  unfold get_marketplace. eexists. split; [reflexivity |].
  intros p. rewrite !In_filter_if, strict_eq_Some. unfold passes. tauto.
Qed.

Lemma marketplace_sample :
  ∃ l, get_marketplace sample_host sample_rest cheap_and_green = Json 200 l ∧
       ∀ p, In p l ↔ In p (mockProducts sample_host) ∧ passes sample_rest cheap_and_green p.
Proof.
  exact (marketplace_returns_exactly_the_matches sample_host sample_rest cheap_and_green).
Defined.

Lemma is_nan_Prim2SF (x : float) :
  is_nan x = true → FloatOps.Prim2SF x = SpecFloat.S754_nan.
Proof.
  unfold is_nan. rewrite FloatAxioms.eqb_spec. unfold SpecFloat.SFeqb.
  destruct (FloatOps.Prim2SF x) as [s | s | | s m ex]; try reflexivity.
  - discriminate.
  - destruct s; discriminate.
  - rewrite SFcompare_refl_finite. discriminate.
Qed.

Lemma leb_nan_l (x y : float) : is_nan x = true → PrimFloat.leb x y = false.
Proof.
  intros Hx. rewrite FloatAxioms.leb_spec, (is_nan_Prim2SF x Hx). reflexivity.
Qed.

Lemma leb_nan_r (x y : float) : is_nan y = true → PrimFloat.leb x y = false.
Proof.
  intros Hy. rewrite FloatAxioms.leb_spec, (is_nan_Prim2SF y Hy).
  unfold SpecFloat.SFleb. destruct (FloatOps.Prim2SF x); reflexivity.
Qed.

Lemma filter_if_nil (param : option string) (keep : product → bool) :
  filter_if param keep [] = [].
Proof. unfold filter_if. destruct (string_truthy param); reflexivity. Qed.

Lemma filter_if_none (param : option string) (keep : product → bool) (l : list product) :
  string_truthy param = true → (∀ p, keep p = false) → filter_if param keep l = [].
Proof.
  intros Hp Hk. unfold filter_if. rewrite Hp.
  induction l as [| p l IH]; cbn [List.filter]; [reflexivity |].
  rewrite Hk. exact IH.
Qed.

(** X16. A price or impact bound that is present but does not parse as a
    number is neither ignored nor reported: the comparison with NaN fails
    for every product and the route answers 200 with an empty list. *)
Theorem marketplace_unparsable_bound_gives_nothing (h : host) (e : rest_env)
    (q : marketplace_query) (bound : option string) :
  bound = price_min q ∨ bound = price_max q ∨
  bound = impact_min q ∨ bound = impact_max q →
  string_truthy bound = true →
  is_nan (parseFloat e (property_key bound)) = true →
  get_marketplace h e q = Json 200 [].
Proof.
  intros Hwhich Htruthy Hnan. unfold get_marketplace. f_equal.
  destruct Hwhich as [-> | [-> | [-> | ->]]].
  - rewrite (filter_if_none (price_min q) _ _ Htruthy)
      by (intros p; apply leb_nan_l; exact Hnan).
    rewrite !filter_if_nil. reflexivity.
  - rewrite (filter_if_none (price_max q) _ _ Htruthy)
      by (intros p; apply leb_nan_r; exact Hnan).
    rewrite !filter_if_nil. reflexivity.
  - rewrite (filter_if_none (impact_min q) _ _ Htruthy)
      by (intros p; apply leb_nan_l; exact Hnan).
    rewrite !filter_if_nil. reflexivity.
  - rewrite (filter_if_none (impact_max q) _ _ Htruthy)
      by (intros p; apply leb_nan_r; exact Hnan).
    reflexivity.
Qed.

Lemma marketplace_unparsable_bound_sample :
  get_marketplace sample_host sample_rest
    {| query_category := None;
       price_min := Some "cheap";
       price_max := None;
       impact_min := None;
       impact_max := None |} = Json 200 [].
Proof.
  apply (marketplace_unparsable_bound_gives_nothing sample_host sample_rest _ (Some "cheap")).
  - left. reflexivity.
  - reflexivity.
  - reflexivity.
Defined.

(** ** Who is never sent anything *)

Lemma not_connected_not_member (st : server) (s room : string) :
  members_are_connected st → sockets st !! s = None → s ∉ members st room.
Proof.
  intros Hm Hs Hin. destruct (Hm s room Hin) as (u & Hu & _). congruence.
Qed.

Lemma received_io_emit_not_connected (p : packet) (st : server) (s : string) :
  sockets st !! s = None → received (io_emit p st) s = received st s.
Proof.
  intros Hs. rewrite received_io_emit.
  rewrite decide_False, app_nil_r; [reflexivity |].
  rewrite Hs. intros [x Hx]. discriminate Hx.
Qed.

(** X17. In every reachable state a socket that is not connected (never
    connected, refused, or disconnected) is sent nothing by any inbound
    event of any other socket: broadcasts, room messages, private answers
    and errors all resolve to connected sockets only. *)
Theorem nothing_is_sent_to_a_socket_that_is_not_connected (h : host)
    (st st' : server) (s sender : string) (ev : inbound) :
  reachable st →
  sockets st !! s = None →
  handle h sender ev st = Some st' →
  received st' s = received st s.
Proof.
  intros Hr Hs Hev.
  pose proof (reachable_members_are_connected st Hr) as Hm.
  assert (∀ u, sockets st !! sender = Some u → s ≠ sender) as Hne
    by (intros u Hu ->; congruence).
  destruct ev as [data | data | data | data | data | data]; cbn [handle] in Hev.
  - injection Hev as <-. unfold log_activity.
    destruct (sockets st !! sender) as [u |] eqn:Hu; [| reflexivity].
    specialize (Hne u eq_refl).
    destruct data as [r |];
      [| rewrite received_socket_emit, (decide_False _ _ Hne), app_nil_r; reflexivity].
    destruct (calculateCarbonFootprint h 0 (report_category r) (report_quantity r)
                (report_unit r) "US");
      [| rewrite received_socket_emit, (decide_False _ _ Hne), app_nil_r; reflexivity].
    rewrite received_socket_emit, (decide_False _ _ Hne), app_nil_r.
    apply received_io_emit_not_connected. exact Hs.
  - injection Hev as <-. unfold update_goal.
    destruct (sockets st !! sender) as [u |] eqn:Hu; [| reflexivity].
    specialize (Hne u eq_refl).
    destruct data as [g |];
      [| rewrite received_socket_emit, (decide_False _ _ Hne), app_nil_r; reflexivity].
    rewrite received_io_to_emit,
      (decide_False _ _ (not_connected_not_member st s _ Hm Hs)), app_nil_r.
    reflexivity.
  - injection Hev as <-. unfold update_challenge_progress.
    destruct (sockets st !! sender) as [u |] eqn:Hu; [| reflexivity].
    specialize (Hne u eq_refl).
    destruct data as [c |];
      [| rewrite received_socket_emit, (decide_False _ _ Hne), app_nil_r; reflexivity].
    apply received_io_emit_not_connected. exact Hs.
  - injection Hev as <-. unfold webinar_message.
    destruct (sockets st !! sender) as [u |] eqn:Hu; [| reflexivity].
    specialize (Hne u eq_refl).
    destruct data as [c |];
      [| rewrite received_socket_emit, (decide_False _ _ Hne), app_nil_r; reflexivity].
    rewrite received_io_to_emit,
      (decide_False _ _ (not_connected_not_member st s _ Hm Hs)), app_nil_r.
    reflexivity.
  - unfold join_webinar in Hev.
    destruct (sockets st !! sender) as [u |] eqn:Hu; [| injection Hev as <-; reflexivity].
    specialize (Hne u eq_refl).
    destruct data as [d |]; cbn [mbind option_bind] in Hev; [| discriminate Hev].
    injection Hev as <-.
    rewrite received_socket_emit, (decide_False _ _ Hne), app_nil_r. reflexivity.
  - unfold leave_webinar in Hev.
    destruct (sockets st !! sender) as [u |] eqn:Hu; [| injection Hev as <-; reflexivity].
    specialize (Hne u eq_refl).
    destruct data as [d |]; cbn [mbind option_bind] in Hev; [| discriminate Hev].
    injection Hev as <-.
    rewrite received_socket_emit, (decide_False _ _ Hne), app_nil_r. reflexivity.
Qed.

Lemma nothing_is_sent_sample :
  received (log_activity sample_host "s1" (Some car_report) three_sockets) "s9" =
  received three_sockets "s9".
Proof.
  exact (nothing_is_sent_to_a_socket_that_is_not_connected sample_host three_sockets
           _ "s9" "s1" (LogActivity (Some car_report)) three_sockets_reachable
           ltac:(vm_compute; reflexivity) eq_refl).
Defined.

Lemma io_use_accepts_sample :
  ∃ t d rows, Some "alice-token" = Some t ∧ t ≠ "" ∧
              jwt_verify sample_host t = Some d ∧
              select_user sample_host (decoded_user_id d) = Some (alice :: rows).
Proof.
  exact (io_use_accepts_only_known sample_host (Some "alice-token") alice
           ltac:(vm_compute; reflexivity)).
Defined.
